(** * decapod: the Python SDK shim and its validate demo

    A shallow embedding of [sdk/python/decapod_shim.py] ([run_rpc],
    [run_validate]) and of [examples/python_validate_demo.py] ([main]).

    The two scripts are glue around an external executable: they build a
    JSON request, spawn [decapod], and wrap what the child process printed.
    The embedding therefore has three layers:

    - the Python values the scripts handle ([str], [bytes], the JSON-shaped
      objects) and the exceptions they can raise;
    - the library functions the scripts call ([bytes.decode], [str.strip],
      [str.encode], [uuid.uuid4], [json.dumps], [json.loads], [bool]),
      modelled after CPython 3.11;
    - the scripts themselves, written against a [World] that answers the
      questions the scripts ask their environment (random bytes, the result
      of running a child process, the contents of a file).

    The two limits of the interpreter that can stop [json.dumps] in
    [run_rpc] are part of the [World]: the digits an [int] may have when it
    is turned into text, and the depth of nesting the recursion limit
    leaves.  Left out of the model: the same two limits in [json.loads] and
    in the [json.dumps] of [main] (the theorems about a reply, or about a
    fixture, start from what [json.loads] returned), the arithmetic of
    [float] (a [float] is kept as a decimal, and [float.__repr__] is a
    parameter), and [argparse] ([main] takes [args.fixture] as it is after
    parsing). *)

From Stdlib Require Import ZArith NArith List Bool Lia String Ascii.
From Stdlib Require Import Strings.Byte DecimalPos.
Import ListNotations.

Set Warnings "-register-all".

Local Open Scope Z_scope.

(* ================================================================= *)
(** * Python values *)

(** A Python [str] is a sequence of Unicode code points, each in
    [0, 0x10FFFF]; surrogate code points may occur in it. *)
Definition str := list Z.

(** A Python [bytes] object. *)
Definition bytes := list byte.

(** Code point of an ASCII character, and the [str] of an ASCII literal. *)
Definition ord (c : ascii) : Z := Z.of_N (N_of_ascii c).

Definition lit (s : string) : str := List.map ord (list_ascii_of_string s).

(** A [bytes] literal [b"..."]. *)
Definition blit (s : string) : bytes := list_byte_of_string s.

Definition byte_val (b : byte) : Z := Z.of_N (Byte.to_N b).

(** The byte with value [z mod 256]. *)
Definition byte_of (z : Z) : byte :=
  match Byte.of_N (Z.to_N (z mod 256)) with
  | Some b => b
  | None => x00
  end.

Fixpoint str_eqb (a b : str) : bool :=
  match a, b with
  | [], [] => true
  | x :: a', y :: b' => (x =? y) && str_eqb a' b'
  | _, _ => false
  end.

(** A code point is valid when [chr] accepts it. *)
Definition valid_codepoint (c : Z) : bool := (0 <=? c) && (c <=? 0x10FFFF).

Definition valid_str (s : str) : bool := forallb valid_codepoint s.

Definition is_high_surrogate (c : Z) : bool := (0xD800 <=? c) && (c <=? 0xDBFF).
Definition is_low_surrogate (c : Z) : bool := (0xDC00 <=? c) && (c <=? 0xDFFF).
Definition is_surrogate (c : Z) : bool := (0xD800 <=? c) && (c <=? 0xDFFF).

(** ** Exceptions and results *)

Inductive os_error : Type :=
| FileNotFoundError
| PermissionError
| OtherOSError (errno : Z).

Inductive json_error : Type :=
| ExpectingValue
| ExtraData
| UnterminatedString
| InvalidControlCharacter
| InvalidEscape
| InvalidUnicodeEscape
| ExpectingPropertyName
| ExpectingColonDelimiter
| ExpectingCommaDelimiter
| UnexpectedBOM.

(** The exceptions the two scripts can meet.  [JSONDecodeError] and the two
    Unicode errors are subclasses of [ValueError] in Python; [ValueError]
    itself is what turning an [int] of too many digits into text raises.
    The three kinds of [os_error] are (subclasses of) [OSError]. *)
Inductive exn : Type :=
| RuntimeError (msg : str)
| OSError (e : os_error)
| UnicodeDecodeError
| UnicodeEncodeError
| JSONDecodeError (e : json_error)
| ValueError
| RecursionError
| AttributeError (attr : string)
| KeyError (key : str).

Inductive outcome (A : Type) : Type :=
| Return (a : A)
| Raise (e : exn).

Arguments Return {A} a.
Arguments Raise {A} e.

Definition obind {A B} (m : outcome A) (k : A -> outcome B) : outcome B :=
  match m with
  | Return a => k a
  | Raise e => Raise e
  end.

(* ================================================================= *)
(** * [bytes.decode("utf-8")] and [str.encode("utf-8")] *)

(** State of the decoder between two bytes: either at the start of a
    character, or inside a multi-byte sequence with [more] continuation
    bytes to come, the bits gathered so far in [acc], and the range
    [lo..hi] the next byte must lie in (Unicode table 3-7: the first
    continuation byte after E0, ED, F0 and F4 has a narrower range). *)
Inductive utf8_state : Type :=
| AtStart
| Inside (more : nat) (acc lo hi : Z).

(** What a lead byte announces.  [None]: not a valid start byte. *)
Definition utf8_lead (b : Z) : option utf8_state :=
  if b <? 0x80 then None
  else if b <? 0xC2 then None
  else if b <? 0xE0 then Some (Inside 1 (Z.land b 0x1F) 0x80 0xBF)
  else if b =? 0xE0 then Some (Inside 2 (Z.land b 0x0F) 0xA0 0xBF)
  else if b =? 0xED then Some (Inside 2 (Z.land b 0x0F) 0x80 0x9F)
  else if b <? 0xF0 then Some (Inside 2 (Z.land b 0x0F) 0x80 0xBF)
  else if b =? 0xF0 then Some (Inside 3 (Z.land b 0x07) 0x90 0xBF)
  else if b <? 0xF4 then Some (Inside 3 (Z.land b 0x07) 0x80 0xBF)
  else if b =? 0xF4 then Some (Inside 3 (Z.land b 0x07) 0x80 0x8F)
  else None.

(** One decoded item: a code point, or [None] for a maximal ill-formed
    subpart of the input (one decoding error). *)
Definition utf8_item := option Z.

Definition utf8_start (b : Z) (k : utf8_state -> list utf8_item) : list utf8_item :=
  if b <? 0x80 then Some b :: k AtStart
  else match utf8_lead b with
       | Some st => k st
       | None => None :: k AtStart
       end.

Fixpoint utf8_items (st : utf8_state) (bs : bytes) : list utf8_item :=
  match bs with
  | [] => match st with
          | AtStart => []
          | Inside _ _ _ _ => [None]
          end
  | b :: bs' =>
      let v := byte_val b in
      match st with
      | AtStart => utf8_start v (fun st' => utf8_items st' bs')
      | Inside more acc lo hi =>
          if (lo <=? v) && (v <=? hi) then
            let acc' := Z.lor (Z.shiftl acc 6) (Z.land v 0x3F) in
            match more with
            | S (S m) => utf8_items (Inside (S m) acc' 0x80 0xBF) bs'
            | _ => Some acc' :: utf8_items AtStart bs'
            end
          else
            None :: utf8_start v (fun st' => utf8_items st' bs')
      end
  end.

(** [b.decode("utf-8", errors="replace")]: every ill-formed subpart becomes
    U+FFFD; never raises. *)
Definition decode_utf8_replace (b : bytes) : str :=
  List.map (fun it => match it with Some c => c | None => 0xFFFD end)
           (utf8_items AtStart b).

Fixpoint all_items (l : list utf8_item) : option str :=
  match l with
  | [] => Some []
  | Some c :: l' => option_map (cons c) (all_items l')
  | None :: _ => None
  end.

(** [b.decode("utf-8")]: raises on the first ill-formed subpart. *)
Definition decode_utf8 (b : bytes) : outcome str :=
  match all_items (utf8_items AtStart b) with
  | Some s => Return s
  | None => Raise UnicodeDecodeError
  end.

(** UTF-8 bytes of one code point; [None] for a surrogate, which
    [str.encode] refuses. *)
Definition utf8_encode_char (c : Z) : option bytes :=
  if c <? 0x80 then Some [byte_of c]
  else if c <? 0x800 then
    Some [byte_of (Z.lor 0xC0 (Z.shiftr c 6));
          byte_of (Z.lor 0x80 (Z.land c 0x3F))]
  else if is_surrogate c then None
  else if c <? 0x10000 then
    Some [byte_of (Z.lor 0xE0 (Z.shiftr c 12));
          byte_of (Z.lor 0x80 (Z.land (Z.shiftr c 6) 0x3F));
          byte_of (Z.lor 0x80 (Z.land c 0x3F))]
  else
    Some [byte_of (Z.lor 0xF0 (Z.shiftr c 18));
          byte_of (Z.lor 0x80 (Z.land (Z.shiftr c 12) 0x3F));
          byte_of (Z.lor 0x80 (Z.land (Z.shiftr c 6) 0x3F));
          byte_of (Z.lor 0x80 (Z.land c 0x3F))].

(** [s.encode("utf-8")]. *)
Fixpoint encode_utf8 (s : str) : outcome bytes :=
  match s with
  | [] => Return []
  | c :: s' =>
      match utf8_encode_char c with
      | None => Raise UnicodeEncodeError
      | Some bs => obind (encode_utf8 s') (fun rest => Return (bs ++ rest))
      end
  end.

(* ================================================================= *)
(** * [str.strip()] *)

(** [str.isspace] on one code point (the code points with bidirectional
    type WS, B or S, or category Zs). *)
Definition isspace (c : Z) : bool :=
  ((0x09 <=? c) && (c <=? 0x0D)) || ((0x1C <=? c) && (c <=? 0x20))
  || (c =? 0x85) || (c =? 0xA0) || (c =? 0x1680)
  || ((0x2000 <=? c) && (c <=? 0x200A))
  || (c =? 0x2028) || (c =? 0x2029) || (c =? 0x202F) || (c =? 0x205F)
  || (c =? 0x3000).

Fixpoint lstrip (s : str) : str :=
  match s with
  | c :: s' => if isspace c then lstrip s' else s
  | [] => []
  end.

Definition rstrip (s : str) : str := rev (lstrip (rev s)).

Definition strip (s : str) : str := rstrip (lstrip s).

(* ================================================================= *)
(** * The objects the scripts handle *)

(** A Python [float], kept as a decimal: not-a-number, an infinity, or the
    decimal [(-1)^negative * digits * 10^exp10].  A [float] that
    [json.loads] built is kept as the JSON number it was read from; Python
    rounds that decimal to the nearest binary64 number, and the rounding
    itself is not carried out here, only its one consequence the scripts
    can observe ([float_is_zero]).  A [float] a caller passes is kept as
    the decimal its [repr] shows ([1.5] as [FDec false 15 (-1)]). *)
Inductive pyfloat : Type :=
| FNaN
| FInf (negative : bool)
| FDec (negative : bool) (digits : N) (exp10 : Z).

(** The objects [json.loads] builds, which are also the objects a caller
    can put in [params] for [json.dumps] to accept them unchanged: [None],
    [bool], [int], [float], [str], [list], and [dict] with [str] keys.  A
    [dict] keeps its items in insertion order. *)
Inductive value : Type :=
| VNone
| VBool (b : bool)
| VInt (n : Z)
| VFloat (f : pyfloat)
| VStr (s : str)
| VList (l : list value)
| VDict (d : list (str * value)).

Definition dict := list (str * value).

(** [d.get(key)]: [None] when the key is absent. *)
Fixpoint dict_lookup (d : dict) (key : str) : option value :=
  match d with
  | [] => None
  | (k, v) :: d' => if str_eqb k key then Some v else dict_lookup d' key
  end.

(** [d.get(key, default)]. *)
Definition dict_get (d : dict) (key : str) (default : value) : value :=
  match dict_lookup d key with
  | Some v => v
  | None => default
  end.

(** [d[key] = v]: an existing key keeps its place, a new one goes last. *)
Fixpoint dict_set (d : dict) (key : str) (v : value) : dict :=
  match d with
  | [] => [(key, v)]
  | (k, x) :: d' =>
      if str_eqb k key then (k, v) :: d' else (k, x) :: dict_set d' key v
  end.

(** [dict(pairs)]. *)
Definition dict_of_pairs (pairs : list (str * value)) : dict :=
  fold_left (fun d kv => dict_set d (fst kv) (snd kv)) pairs [].

(** The decimal [digits * 10^exp10] rounds to zero in binary64 exactly when
    it is at most [2^-1075], half the least positive number (ties go to the
    even neighbour, which is zero). *)
Definition float_is_zero (f : pyfloat) : bool :=
  match f with
  | FNaN => false
  | FInf _ => false
  | FDec _ digits exp10 =>
      (digits =? 0)%N
      || ((exp10 <? 0) && (digits * 2 ^ 1075 <=? 10 ^ Z.to_N (- exp10))%N)
  end.

(** [bool(v)]. *)
Definition truthy (v : value) : bool :=
  match v with
  | VNone => false
  | VBool b => b
  | VInt n => negb (n =? 0)
  | VFloat f => negb (float_is_zero f)
  | VStr s => match s with [] => false | _ => true end
  | VList l => match l with [] => false | _ => true end
  | VDict d => match d with [] => false | _ => true end
  end.

(** [x or y] on optional arguments: [x] when it is given and truthy. *)
Definition or_default {A} (is_true : A -> bool) (x : option A) (y : A) : A :=
  match x with
  | Some a => if is_true a then a else y
  | None => y
  end.

(* ================================================================= *)
(** * The [json] module *)

Module json.

(** ** Encoding ([json/encoder.py]) *)

Definition hex_digit (n : Z) : Z := if n <? 10 then 48 + n else 87 + n.

(** ['\\u{0:04x}'.format(n)] for [n < 0x10000]. *)
Definition u_escape (n : Z) : str :=
  [92; 117;
   hex_digit (Z.land (Z.shiftr n 12) 15); hex_digit (Z.land (Z.shiftr n 8) 15);
   hex_digit (Z.land (Z.shiftr n 4) 15); hex_digit (Z.land n 15)].

(** The replacement of one character in [py_encode_basestring_ascii]:
    [ESCAPE_DCT] for the backslash, the quote and the named control
    characters, the character itself from [' '] to ['~'], and a [\uXXXX]
    escape (a surrogate pair above U+FFFF) for every other one. *)
Definition escape_char (c : Z) : str :=
  if c =? 92 then [92; 92]
  else if c =? 34 then [92; 34]
  else if c =? 8 then [92; 98]
  else if c =? 12 then [92; 102]
  else if c =? 10 then [92; 110]
  else if c =? 13 then [92; 114]
  else if c =? 9 then [92; 116]
  else if (32 <=? c) && (c <=? 126) then [c]
  else if c <? 0x10000 then u_escape c
  else
    let n := c - 0x10000 in
    u_escape (Z.lor 0xD800 (Z.land (Z.shiftr n 10) 0x3FF))
    ++ u_escape (Z.lor 0xDC00 (Z.land n 0x3FF)).

Definition py_encode_basestring_ascii (s : str) : str :=
  34 :: flat_map escape_char s ++ [34].

Fixpoint uint_chars (d : Decimal.uint) : str :=
  match d with
  | Decimal.Nil => []
  | Decimal.D0 d => 48 :: uint_chars d
  | Decimal.D1 d => 49 :: uint_chars d
  | Decimal.D2 d => 50 :: uint_chars d
  | Decimal.D3 d => 51 :: uint_chars d
  | Decimal.D4 d => 52 :: uint_chars d
  | Decimal.D5 d => 53 :: uint_chars d
  | Decimal.D6 d => 54 :: uint_chars d
  | Decimal.D7 d => 55 :: uint_chars d
  | Decimal.D8 d => 56 :: uint_chars d
  | Decimal.D9 d => 57 :: uint_chars d
  end.

(** [int.__repr__]. *)
Definition int_repr (n : Z) : str :=
  (if n <? 0 then [45] else []) ++ uint_chars (N.to_uint (Z.abs_N n)).

(** [sep.join(parts)]. *)
Fixpoint join (sep : str) (parts : list str) : str :=
  match parts with
  | [] => []
  | [p] => p
  | p :: ps => p ++ sep ++ join sep ps
  end.

Section encoder.

(** The text written for a [float] read from a decimal: [float.__repr__] of
    the binary64 number nearest to it, the shortest decimal that reads back
    as that number ([Infinity] when the decimal overflows).  Binary64
    arithmetic is outside this development, so the function is a parameter
    of the encoder. *)
Variable float_repr : pyfloat -> str.

(** The [indent] argument of [json.dumps]. *)
Variable indent : option nat.

Definition floatstr (f : pyfloat) : str :=
  match f with
  | FNaN => lit "NaN"
  | FInf false => lit "Infinity"
  | FInf true => lit "-Infinity"
  | FDec _ _ _ => float_repr f
  end.

(** [', '] without [indent], [','] with it. *)
Definition item_separator : str :=
  match indent with
  | None => [44; 32]
  | Some _ => [44]
  end.

Definition key_separator : str := [58; 32].

(** ['\n' + ' ' * (indent * level)], or nothing without [indent]. *)
Definition newline_indent (level : nat) : str :=
  match indent with
  | None => []
  | Some n => 10 :: repeat 32 (n * level)
  end.

(** [_iterencode], with the chunks it yields already joined. *)
Fixpoint iterencode (level : nat) (o : value) : str :=
  match o with
  | VNone => lit "null"
  | VBool true => lit "true"
  | VBool false => lit "false"
  | VInt n => int_repr n
  | VFloat f => floatstr f
  | VStr s => py_encode_basestring_ascii s
  | VList [] => lit "[]"
  | VList l =>
      [91] ++ newline_indent (S level)
      ++ join (item_separator ++ newline_indent (S level))
              (List.map (iterencode (S level)) l)
      ++ newline_indent level ++ [93]
  | VDict [] => lit "{}"
  | VDict d =>
      [123] ++ newline_indent (S level)
      ++ join (item_separator ++ newline_indent (S level))
              (List.map (fun kv => py_encode_basestring_ascii (fst kv)
                                   ++ key_separator
                                   ++ iterencode (S level) (snd kv)) d)
      ++ newline_indent level ++ [125]
  end.

End encoder.

(** [json.dumps(obj)] and [json.dumps(obj, indent=n)]: the text, when the
    encoder gets to the end of the object. *)
Definition dumps (float_repr : pyfloat -> str) (indent : option nat) (obj : value) : str :=
  iterencode float_repr indent 0 obj.

(** [int.__repr__] refuses an [int] of more than [max_digits] digits
    ([sys.get_int_max_str_digits()], 4300 by default, 0 for no limit); it
    only looks at the limit when the text, sign included, is longer than
    640 characters. *)
Definition int_too_long (max_digits : N) (n : Z) : bool :=
  (640 <? N.of_nat (List.length (int_repr n)))%N
  && (0 <? max_digits)%N
  && (max_digits <? N.of_nat (List.length (uint_chars (N.to_uint (Z.abs_N n)))))%N.

Fixpoint first_error (errors : list (option exn)) : option exn :=
  match errors with
  | [] => None
  | Some e :: _ => Some e
  | None :: errors' => first_error errors'
  end.

(** The error that stops the C encoder of [json.dumps], if any: the first
    one it meets on its way through the object, items in order.  Entering
    a list or a dict, even an empty one, raises [RecursionError] when
    [depth] of them are open already and the recursion limit leaves room
    for no more; an [int] of too many digits raises [ValueError].  Strings,
    floats ([allow_nan] is on), [None], [True] and [False] raise
    nothing. *)
Fixpoint encoder_error (depth : nat) (max_digits : N) (o : value) {struct o}
  : option exn :=
  match o with
  | VInt n => if int_too_long max_digits n then Some ValueError else None
  | VList l =>
      match depth with
      | O => Some RecursionError
      | S depth' => first_error (List.map (encoder_error depth' max_digits) l)
      end
  | VDict d =>
      match depth with
      | O => Some RecursionError
      | S depth' =>
          first_error (List.map (fun kv => encoder_error depth' max_digits (snd kv)) d)
      end
  | _ => None
  end.

(** ** Decoding ([json/decoder.py], [json/scanner.py]) *)

(** Result of scanning a prefix of the text: the object read and the text
    after it, a [JSONDecodeError], or [Exhausted] when the recursion budget
    of the model ran out (see [loads]). *)
Inductive scan (A : Type) : Type :=
| Scanned (a : A) (rest : str)
| Failed (e : json_error)
| Exhausted.

Arguments Scanned {A} a rest.
Arguments Failed {A} e.
Arguments Exhausted {A}.

Definition scan_map {A B} (f : A -> B) (r : scan A) : scan B :=
  match r with
  | Scanned a rest => Scanned (f a) rest
  | Failed e => Failed e
  | Exhausted => Exhausted
  end.

(** [WHITESPACE_STR = ' \t\n\r']. *)
Definition is_ws (c : Z) : bool :=
  (c =? 32) || (c =? 9) || (c =? 10) || (c =? 13).

(** [s[WHITESPACE.match(s, end).end():]]. *)
Fixpoint skip_ws (s : str) : str :=
  match s with
  | c :: s' => if is_ws c then skip_ws s' else s
  | [] => []
  end.

Definition hex_value (c : Z) : option Z :=
  if (48 <=? c) && (c <=? 57) then Some (c - 48)
  else if (97 <=? c) && (c <=? 102) then Some (c - 87)
  else if (65 <=? c) && (c <=? 70) then Some (c - 55)
  else None.

(** The four hexadecimal digits of a [\uXXXX] escape. *)
Definition hex4 (a b c d : Z) : option Z :=
  match hex_value a, hex_value b, hex_value c, hex_value d with
  | Some x, Some y, Some z, Some w => Some (((x * 16 + y) * 16 + z) * 16 + w)
  | _, _, _, _ => None
  end.

(** The [BACKSLASH] table. *)
Definition BACKSLASH (esc : Z) : option Z :=
  if esc =? 34 then Some 34
  else if esc =? 92 then Some 92
  else if esc =? 47 then Some 47
  else if esc =? 98 then Some 8
  else if esc =? 102 then Some 12
  else if esc =? 110 then Some 10
  else if esc =? 114 then Some 13
  else if esc =? 116 then Some 9
  else None.

Definition join_surrogates (hi lo : Z) : Z :=
  0x10000 + Z.lor (Z.shiftl (hi - 0xD800) 10) (lo - 0xDC00).

(** [scanstring(s, end)], [s] being the text after the opening quote.  As
    in the C scanner, a [\uXXXX] escape must be followed by at least one
    more character, and a high surrogate is joined with a [\uXXXX] escape
    of a low surrogate that follows it directly. *)
Fixpoint scanstring (s : str) : scan str :=
  match s with
  | [] => Failed UnterminatedString
  | c :: s1 =>
      if c =? 34 then Scanned [] s1
      else if c =? 92 then
        match s1 with
        | [] => Failed UnterminatedString
        | esc :: s2 =>
            if esc =? 117 then
              match s2 with
              | h1 :: h2 :: h3 :: h4 :: ((_ :: _) as s3) =>
                  match hex4 h1 h2 h3 h4 with
                  | None => Failed InvalidUnicodeEscape
                  | Some uni =>
                      if is_high_surrogate uni then
                        match s3 with
                        | b1 :: b2 :: g1 :: g2 :: g3 :: g4 :: ((_ :: _) as s5) =>
                            if (b1 =? 92) && (b2 =? 117) then
                              match hex4 g1 g2 g3 g4 with
                              | None => Failed InvalidUnicodeEscape
                              | Some uni2 =>
                                  if is_low_surrogate uni2
                                  then scan_map (cons (join_surrogates uni uni2)) (scanstring s5)
                                  else scan_map (cons uni) (scanstring s3)
                              end
                            else scan_map (cons uni) (scanstring s3)
                        | _ => scan_map (cons uni) (scanstring s3)
                        end
                      else scan_map (cons uni) (scanstring s3)
                  end
              | _ => Failed InvalidUnicodeEscape
              end
            else
              match BACKSLASH esc with
              | Some ch => scan_map (cons ch) (scanstring s2)
              | None => Failed InvalidEscape
              end
        end
      else if c <=? 0x1F then Failed InvalidControlCharacter
      else scan_map (cons c) (scanstring s1)
  end.

Definition is_digit (c : Z) : bool := (48 <=? c) && (c <=? 57).

(** The longest run of digits at the start of [s], and what follows it. *)
Fixpoint span_digits (s : str) : str * str :=
  match s with
  | c :: s' =>
      if is_digit c
      then let (ds, r) := span_digits s' in (c :: ds, r)
      else ([], s)
  | [] => ([], [])
  end.

Definition digits_value (ds : str) : N :=
  fold_left (fun acc c => acc * 10 + Z.to_N (c - 48))%N ds 0%N.

(** The integer part [0|[1-9][0-9]*] of [NUMBER_RE]. *)
Definition match_integer (s : str) : option (str * str) :=
  match s with
  | c :: s' =>
      if c =? 48 then Some ([48], s')
      else if (49 <=? c) && (c <=? 57)
      then let (ds, r) := span_digits s' in Some (c :: ds, r)
      else None
  | [] => None
  end.

(** The optional fraction [(\.[0-9]+)?]: its digits, none when absent. *)
Definition match_frac (s : str) : str * str :=
  match s with
  | c :: s' =>
      if c =? 46 then
        match span_digits s' with
        | ([], _) => ([], s)
        | (ds, r) => (ds, r)
        end
      else ([], s)
  | [] => ([], s)
  end.

(** The optional exponent [([eE][-+]?[0-9]+)?]. *)
Definition match_exp (s : str) : option Z * str :=
  match s with
  | c :: s1 =>
      if (c =? 101) || (c =? 69) then
        let '(negative, s2) :=
          match s1 with
          | d :: s2 =>
              if d =? 45 then (true, s2)
              else if d =? 43 then (false, s2)
              else (false, s1)
          | [] => (false, s1)
          end in
        match span_digits s2 with
        | ([], _) => (None, s)
        | (ds, r) =>
            (Some (if negative then - Z.of_N (digits_value ds)
                   else Z.of_N (digits_value ds)), r)
        end
      else (None, s)
  | [] => (None, s)
  end.

(** [NUMBER_RE.match]: an [int] when there is neither fraction nor
    exponent, a [float] otherwise. *)
Definition match_number (s : str) : option (value * str) :=
  let '(negative, s1) :=
    match s with
    | c :: s' => if c =? 45 then (true, s') else (false, s)
    | [] => (false, s)
    end in
  match match_integer s1 with
  | None => None
  | Some (ids, s2) =>
      let (fds, s3) := match_frac s2 in
      let (ex, s4) := match_exp s3 in
      match fds, ex with
      | [], None =>
          Some (VInt (if negative then - Z.of_N (digits_value ids)
                      else Z.of_N (digits_value ids)), s4)
      | _, _ =>
          Some (VFloat (FDec negative (digits_value (ids ++ fds))
                             (match ex with Some e => e | None => 0 end
                              - Z.of_nat (List.length fds))), s4)
      end
  end.

(** [s[len(p):]] when [s.startswith(p)]. *)
Fixpoint after_prefix (p s : str) : option str :=
  match p, s with
  | [], _ => Some s
  | x :: p', y :: s' => if x =? y then after_prefix p' s' else None
  | _ :: _, [] => None
  end.

(** The loop of [JSONArray], entered at the first item. *)
Fixpoint array_items (scan_once : str -> scan value) (fuel : nat) (s : str)
  : scan (list value) :=
  match fuel with
  | O => Exhausted
  | S fuel' =>
      match scan_once s with
      | Scanned v r =>
          match skip_ws r with
          | c :: r' =>
              if c =? 93 then Scanned [v] r'
              else if c =? 44
              then scan_map (cons v) (array_items scan_once fuel' (skip_ws r'))
              else Failed ExpectingCommaDelimiter
          | [] => Failed ExpectingCommaDelimiter
          end
      | Failed e => Failed e
      | Exhausted => Exhausted
      end
  end.

Definition JSONArray (scan_once : str -> scan value) (fuel : nat) (s : str)
  : scan value :=
  match skip_ws s with
  | c :: s' =>
      if c =? 93 then Scanned (VList []) s'
      else scan_map VList (array_items scan_once fuel (c :: s'))
  | [] => scan_map VList (array_items scan_once fuel [])
  end.

(** The loop of [JSONObject], entered after the opening quote of a key. *)
Fixpoint object_items (scan_once : str -> scan value) (fuel : nat) (s : str)
  : scan (list (str * value)) :=
  match fuel with
  | O => Exhausted
  | S fuel' =>
      match scanstring s with
      | Scanned key r =>
          match skip_ws r with
          | c :: r1 =>
              if c =? 58 then
                match scan_once (skip_ws r1) with
                | Scanned v r2 =>
                    match skip_ws r2 with
                    | d :: r3 =>
                        if d =? 125 then Scanned [(key, v)] r3
                        else if d =? 44 then
                          match skip_ws r3 with
                          | q :: r4 =>
                              if q =? 34
                              then scan_map (cons (key, v))
                                            (object_items scan_once fuel' r4)
                              else Failed ExpectingPropertyName
                          | [] => Failed ExpectingPropertyName
                          end
                        else Failed ExpectingCommaDelimiter
                    | [] => Failed ExpectingCommaDelimiter
                    end
                | Failed e => Failed e
                | Exhausted => Exhausted
                end
              else Failed ExpectingColonDelimiter
          | [] => Failed ExpectingColonDelimiter
          end
      | Failed e => Failed e
      | Exhausted => Exhausted
      end
  end.

Definition JSONObject (scan_once : str -> scan value) (fuel : nat) (s : str)
  : scan value :=
  match skip_ws s with
  | c :: s' =>
      if c =? 125 then Scanned (VDict []) s'
      else if c =? 34
      then scan_map (fun pairs => VDict (dict_of_pairs pairs))
                    (object_items scan_once fuel s')
      else Failed ExpectingPropertyName
  | [] => Failed ExpectingPropertyName
  end.

Definition scan_constant (s : str) : scan value :=
  match after_prefix (lit "null") s with
  | Some r => Scanned VNone r
  | None =>
  match after_prefix (lit "true") s with
  | Some r => Scanned (VBool true) r
  | None =>
  match after_prefix (lit "false") s with
  | Some r => Scanned (VBool false) r
  | None =>
  match match_number s with
  | Some (v, r) => Scanned v r
  | None =>
  match after_prefix (lit "NaN") s with
  | Some r => Scanned (VFloat FNaN) r
  | None =>
  match after_prefix (lit "Infinity") s with
  | Some r => Scanned (VFloat (FInf false)) r
  | None =>
  match after_prefix (lit "-Infinity") s with
  | Some r => Scanned (VFloat (FInf true)) r
  | None => Failed ExpectingValue
  end end end end end end end.

(** [scan_once(s, idx)].  [fuel] bounds the depth of the recursion and the
    number of items of each container. *)
Fixpoint scan_once (fuel : nat) (s : str) : scan value :=
  match fuel with
  | O => Exhausted
  | S fuel' =>
      match s with
      | [] => Failed ExpectingValue
      | c :: s' =>
          if c =? 34 then scan_map VStr (scanstring s')
          else if c =? 123 then JSONObject (scan_once fuel') fuel' s'
          else if c =? 91 then JSONArray (scan_once fuel') fuel' s'
          else scan_constant s
      end
  end.

(** [json.loads(s)] for a [str].  The budget given to [scan_once] is the
    length of the text, which no text exhausts ([scan_once_progresses]
    below): this reader has no recursion limit and no limit on the digits
    of an [int], whereas CPython raises [RecursionError] on a text nested
    deeper than the interpreter allows, and [ValueError] on an [int] of too
    many digits. *)
Definition loads (s : str) : outcome value :=
  match after_prefix [0xFEFF] s with
  | Some _ => Raise (JSONDecodeError UnexpectedBOM)
  | None =>
      match scan_once (S (List.length s)) (skip_ws s) with
      | Scanned obj rest =>
          match skip_ws rest with
          | [] => Return obj
          | _ :: _ => Raise (JSONDecodeError ExtraData)
          end
      | Failed e => Raise (JSONDecodeError e)
      | Exhausted => Raise RecursionError
      end
  end.

End json.

(* ================================================================= *)
(** * The environment of the scripts *)

(** [subprocess.CompletedProcess], with the pipes the scripts capture. *)
Record CompletedProcess : Type := {
  returncode : Z;
  stdout : bytes;
  stderr : bytes
}.

(** What spawning a child process comes to: it ran and exited, or it could
    not be started at all ([Popen] raises an [OSError]). *)
Inductive spawned : Type :=
| Exited (proc : CompletedProcess)
| SpawnFailed (e : os_error).

(** What opening and reading a file comes to. *)
Inductive file_read : Type :=
| FileBytes (content : bytes)
| OpenFailed (e : os_error).

(** Everything the scripts ask of their environment. *)
Record World : Type := {
  (** the stream [os.urandom] draws from *)
  entropy : nat -> byte;
  (** the text [json.dumps] writes for a [float] kept as a decimal
      ([float.__repr__]), a text of one-byte characters *)
  float_repr : pyfloat -> string;
  (** [sys.get_int_max_str_digits()]: the digits an [int] may have when it
      is turned into text, 0 for no limit *)
  int_max_str_digits : N;
  (** how many lists and dicts inside one another [json.dumps] can still
      enter when [run_rpc] calls it: what the recursion limit leaves *)
  encoder_depth : nat;
  (** the outcome of running [args] with [input] on its standard input *)
  spawn : list str -> option bytes -> spawned;
  (** the file system, as [open(path).read()] sees it *)
  read_file : str -> file_read
}.

(** [float.__repr__] as the [str] it returns. *)
Definition repr_float (w : World) (f : pyfloat) : str := lit (float_repr w f).

(** What a script did to its environment, in order. *)
Inductive event : Type :=
| Spawn (args : list str) (input : option bytes)
| OpenFile (path : str)
| Print (text : str).

(** A computation of the scripts: the events it caused and how it ended. *)
Definition io (A : Type) : Type := (list event * outcome A)%type.

Definition ret {A} (a : A) : io A := ([], Return a).

Definition raise {A} (e : exn) : io A := ([], Raise e).

Definition lift {A} (o : outcome A) : io A := ([], o).

Definition bind {A B} (m : io A) (k : A -> io B) : io B :=
  match m with
  | (t, Return a) => let (t', r) := k a in (t ++ t', r)
  | (t, Raise e) => (t, Raise e)
  end.

Notation "x <- m ;; k" := (bind m (fun x => k))
  (at level 61, m at next level, right associativity).

Definition trace {A} (m : io A) : list event := fst m.
Definition result {A} (m : io A) : outcome A := snd m.

(** [os.urandom(n)]. *)
Definition os_urandom (w : World) (n : nat) : bytes :=
  List.map (entropy w) (seq 0 n).

(** [print(text)]. *)
Definition print (text : str) : io unit := ([Print text], Return tt).

(** [open(path, "r", encoding="utf-8").read()]: the bytes of the file decoded
    strictly, with universal newlines. *)
Fixpoint universal_newlines (s : str) : str :=
  match s with
  | 13 :: ((10 :: _) as s') => universal_newlines s'
  | 13 :: s' => 10 :: universal_newlines s'
  | c :: s' => c :: universal_newlines s'
  | [] => []
  end.

Definition read_text (w : World) (path : str) : io str :=
  ([OpenFile path],
   match read_file w path with
   | FileBytes content =>
       obind (decode_utf8 content) (fun s => Return (universal_newlines s))
   | OpenFailed e => Raise (OSError e)
   end).

Module subprocess.

(** [subprocess.run(args, input=input, stdout=PIPE, stderr=PIPE, check=False)]:
    one child process, waited for; a process that cannot be started raises. *)
Definition run (w : World) (args : list str) (input : option bytes)
  : io CompletedProcess :=
  ([Spawn args input],
   match spawn w args input with
   | Exited proc => Return proc
   | SpawnFailed e => Raise (OSError e)
   end).

End subprocess.

(* ================================================================= *)
(** * The [uuid] module *)

Module uuid.

(** [int.from_bytes(b, "big")]. *)
Definition int_from_bytes (b : bytes) : Z :=
  fold_left (fun acc x => acc * 256 + byte_val x) b 0.

(** [UUID(bytes=b, version=4).int]: the variant bits are set to RFC 4122's
    and the version nibble to 4. *)
Definition UUID (b : bytes) : Z :=
  let int := int_from_bytes b in
  let int := Z.land int (Z.lnot (Z.shiftl 0xC000 48)) in
  let int := Z.lor int (Z.shiftl 0x8000 48) in
  let int := Z.land int (Z.lnot (Z.shiftl 0xF000 64)) in
  Z.lor int (Z.shiftl 4 76).

(** ['%032x' % int], for [0 <= int < 2^128]. *)
Definition hex32 (int : Z) : str :=
  List.map (fun i => json.hex_digit (Z.land (Z.shiftr int (4 * Z.of_nat i)) 15))
           (rev (seq 0 32)).

(** [UUID.__str__]. *)
Definition to_str (int : Z) : str :=
  let hex := hex32 int in
  firstn 8 hex ++ [45] ++ firstn 4 (skipn 8 hex) ++ [45]
  ++ firstn 4 (skipn 12 hex) ++ [45] ++ firstn 4 (skipn 16 hex) ++ [45]
  ++ skipn 20 hex.

(** [uuid.uuid4()]. *)
Definition uuid4 (w : World) : Z := UUID (os_urandom w 16).

End uuid.

(* ================================================================= *)
(** * [sdk/python/decapod_shim.py] *)

(** [d[key]]. *)
Definition subscript (d : dict) (key : str) : outcome value :=
  match dict_lookup d key with
  | Some v => Return v
  | None => Raise (KeyError key)
  end.

Record RpcResponse : Type := {
  id : value;
  success : bool;
  raw : dict
}.

Definition str_true (s : str) : bool :=
  match s with [] => false | _ :: _ => true end.

Definition dict_true (d : dict) : bool :=
  match d with [] => false | _ :: _ => true end.

(** The argument vectors of the two child processes. *)
Definition rpc_args : list str := [lit "decapod"; lit "rpc"; lit "--stdin"].

Definition validate_args : list str := [lit "decapod"; lit "validate"].

(** [request_id or str(uuid.uuid4())]. *)
Definition payload_id (w : World) (request_id : option str) : str :=
  or_default str_true request_id (uuid.to_str (uuid.uuid4 w)).

(** The [payload] dict of [run_rpc]. *)
Definition rpc_payload (w : World) (op : str) (params : option dict)
           (request_id : option str) : dict :=
  [ (lit "id", VStr (payload_id w request_id));
    (lit "op", VStr op);
    (lit "params", VDict (or_default dict_true params [])) ].

(** [json.dumps(payload)] as [run_rpc] calls it: the text, unless the
    encoder stops on an error. *)
Definition json_dumps (w : World) (obj : value) : outcome str :=
  match json.encoder_error (encoder_depth w) (int_max_str_digits w) obj with
  | Some e => Raise e
  | None => Return (json.dumps (repr_float w) None obj)
  end.

(** [json.dumps(payload).encode("utf-8")], the bytes given to the child
    process on its standard input. *)
Definition rpc_input (w : World) (payload : dict) : outcome bytes :=
  obind (json_dumps w (VDict payload)) encode_utf8.

Definition run_rpc (w : World) (op : str) (params : option dict)
           (request_id : option str) : io RpcResponse :=
  let payload := rpc_payload w op params request_id in
  input <- lift (rpc_input w payload) ;;
  proc <- subprocess.run w rpc_args (Some input) ;;
  if negb (returncode proc =? 0) then
    raise (RuntimeError (strip (decode_utf8_replace (stderr proc))))
  else
    text <- lift (decode_utf8 (stdout proc)) ;;
    reply <- lift (json.loads text) ;;
    match reply with
    | VDict raw =>
        own_id <- lift (subscript payload (lit "id")) ;;
        ret {| id := dict_get raw (lit "id") own_id;
               success := truthy (dict_get raw (lit "success") (VBool false));
               raw := raw |}
    | _ => raise (AttributeError "get")
    end.

Definition run_validate (w : World) : io dict :=
  proc <- subprocess.run w validate_args None ;;
  ret [ (lit "envelope_version", VStr (lit "1.0.0"));
        (lit "cmd", VStr (lit "validate"));
        (lit "status", VStr (if returncode proc =? 0 then lit "ok" else lit "error"));
        (lit "exit_code", VInt (returncode proc));
        (lit "stdout", VStr (decode_utf8_replace (stdout proc)));
        (lit "stderr", VStr (decode_utf8_replace (stderr proc))) ].

(* ================================================================= *)
(** * [examples/python_validate_demo.py] *)

(** [args.fixture] when [if args.fixture:] takes the branch: the flag was
    given and its path is not the empty string. *)
Definition given_path (fixture : option str) : option str :=
  match fixture with
  | Some (c :: path) => Some (c :: path)
  | _ => None
  end.

(** [main()], given [args.fixture] as [argparse] leaves it: [None] without
    the flag, the path after [--fixture] otherwise. *)
Definition main (w : World) (fixture : option str) : io Z :=
  match given_path fixture with
  | Some path =>
      text <- read_text w path ;;
      data <- lift (json.loads text) ;;
      match data with
      | VDict d =>
          _ <- print (json.dumps (repr_float w) (Some 2%nat)
                        (VDict [ (lit "demo", VStr (lit "python"));
                                 (lit "status",
                                  dict_get d (lit "status") (VStr (lit "unknown"))) ])) ;;
          ret 0
      | _ => raise (AttributeError "get")
      end
  | None =>
      env <- run_validate w ;;
      status <- lift (subscript env (lit "status")) ;;
      exit_code <- lift (subscript env (lit "exit_code")) ;;
      _ <- print (json.dumps (repr_float w) (Some 2%nat)
                    (VDict [ (lit "demo", VStr (lit "python"));
                             (lit "status", status);
                             (lit "exit_code", exit_code) ])) ;;
      ret 0
  end.

(* ================================================================= *)
(** * Vocabulary of the statements *)

Import json.

(** ** Worlds and child processes used as examples *)

(** The [repr] of the floats of the examples, and ["0.0"] for every other
    one. *)
Definition example_repr (f : pyfloat) : string :=
  match f with
  | FDec false 15%N (-1) => "1.5"%string
  | FDec true 25%N (-2) => "-0.25"%string
  | FDec false 1%N 16 => "1e+16"%string
  | _ => "0.0"%string
  end.

(** A world in which every child process ends as [proc] and no file can be
    opened.  The limits of its interpreter are those of CPython 3.11 as it
    starts, seen from a script that calls [run_rpc] at its top level. *)
Definition world_exiting (proc : CompletedProcess) : World :=
  {| entropy := fun i => byte_of (Z.of_nat i);
     float_repr := example_repr;
     int_max_str_digits := 4300;
     encoder_depth := 993;
     spawn := fun _ _ => Exited proc;
     read_file := fun _ => OpenFailed FileNotFoundError |}.

(** A world without the [decapod] executable. *)
Definition world_without_decapod : World :=
  {| entropy := fun i => byte_of (Z.of_nat i);
     float_repr := example_repr;
     int_max_str_digits := 4300;
     encoder_depth := 993;
     spawn := fun _ _ => SpawnFailed FileNotFoundError;
     read_file := fun _ => OpenFailed FileNotFoundError |}.

(** A world whose only file is [content] at [path], and without [decapod]. *)
Definition world_with_file (path : str) (content : bytes) : World :=
  {| entropy := fun i => byte_of (Z.of_nat i);
     float_repr := example_repr;
     int_max_str_digits := 4300;
     encoder_depth := 993;
     spawn := fun _ _ => SpawnFailed FileNotFoundError;
     read_file := fun p => if str_eqb p path then FileBytes content
                           else OpenFailed FileNotFoundError |}.

Definition proc_boom : CompletedProcess :=
  {| returncode := 1; stdout := []; stderr := blit "boom" |}.

Definition proc_replying (out : bytes) : CompletedProcess :=
  {| returncode := 0; stdout := out; stderr := [] |}.

(** The reply [{"success": true}], as the child process prints it. *)
Definition reply_success_true : bytes :=
  blit "{" ++ [x22] ++ blit "success" ++ [x22] ++ blit ": true}".

(** The reply [{"success": "false"}]. *)
Definition reply_success_text : bytes :=
  blit "{" ++ [x22] ++ blit "success" ++ [x22] ++ blit ": " ++ [x22]
  ++ blit "false" ++ [x22] ++ blit "}".

(** The reply [{"success": 0}]. *)
Definition reply_success_zero : bytes :=
  blit "{" ++ [x22] ++ blit "success" ++ [x22] ++ blit ": 0}".

(** The fixture [{"status": "ok"}]. *)
Definition fixture_ok : bytes :=
  blit "{" ++ [x22] ++ blit "status" ++ [x22] ++ blit ": " ++ [x22]
  ++ blit "ok" ++ [x22] ++ blit "}".

(** The text [main] prints for a fixture whose status is ["ok"]:
    [json.dumps({"demo": "python", "status": "ok"}, indent=2)]. *)
Definition demo_output_ok : str :=
  lit "{" ++ [10] ++ lit "  " ++ [34] ++ lit "demo" ++ [34] ++ lit ": "
  ++ [34] ++ lit "python" ++ [34] ++ lit "," ++ [10]
  ++ lit "  " ++ [34] ++ lit "status" ++ [34] ++ lit ": "
  ++ [34] ++ lit "ok" ++ [34] ++ [10] ++ lit "}".

(** ** What the scripts make of a reply and of a fixture *)

(** What [run_rpc] makes of the reply once the child process exited with
    code 0: the last three lines of the function. *)
Definition rpc_reply (own_id : str) (out : bytes) : outcome RpcResponse :=
  obind (decode_utf8 out) (fun text =>
  obind (json.loads text) (fun reply =>
  match reply with
  | VDict raw =>
      Return {| id := dict_get raw (lit "id") (VStr own_id);
                success := truthy (dict_get raw (lit "success") (VBool false));
                raw := raw |}
  | _ => Raise (AttributeError "get")
  end)).

(** The reply of a child process that exits 0, read as [run_rpc] reads it:
    decoded strictly as UTF-8, then parsed as JSON. *)
Definition reply_json (out : bytes) : outcome value :=
  obind (decode_utf8 out) loads.

(** What [json.load] makes of a file opened as UTF-8 text. *)
Definition file_json (content : bytes) : outcome value :=
  obind (decode_utf8 content) (fun s => loads (universal_newlines s)).

(** ** The text of a version 4 UUID *)

(** A lower-case hexadecimal digit. *)
Definition is_lower_hex (c : Z) : bool :=
  ((48 <=? c) && (c <=? 57)) || ((97 <=? c) && (c <=? 102)).

(** What the character at index [i] of the text of a version 4 UUID must
    be: a hyphen at 8, 13, 18 and 23, the version digit [4] at 14, one of
    [8], [9], [a], [b] (the RFC 4122 variant) at 19, a hexadecimal digit
    elsewhere. *)
Definition uuid4_char_ok (i : nat) (c : Z) : bool :=
  if existsb (Nat.eqb i) [8; 13; 18; 23]%nat then c =? 45
  else if Nat.eqb i 14 then c =? 52
  else if Nat.eqb i 19 then (c =? 56) || (c =? 57) || (c =? 97) || (c =? 98)
  else is_lower_hex c.

Fixpoint uuid4_chars_ok (i : nat) (s : str) : bool :=
  match s with
  | [] => true
  | c :: s' => uuid4_char_ok i c && uuid4_chars_ok (S i) s'
  end.

(** The text is a syntactically valid version 4 UUID, in the lower-case
    8-4-4-4-12 form. *)
Definition is_uuid4 (s : str) : bool :=
  (List.length s =? 36)%nat && uuid4_chars_ok 0 s.

(** The [k]-th hexadecimal digit of [n], counted from the least
    significant one. *)
Definition nibble (n : Z) (k : nat) : Z := Z.land (Z.shiftr n (4 * Z.of_nat k)) 15.

(** Bits 128 and above are clear. *)
Definition fits128 (n : Z) : Prop := forall i, 128 <= i -> Z.testbit n i = false.

(** ** Scanners that come to an end *)

(** A scanner is sound on [s] when it does not run out of budget and what
    it leaves is shorter than [s]. *)
Definition progresses {A} (scan : str -> scan A) (s : str) : Prop :=
  scan s <> Exhausted
  /\ forall a r, scan s = Scanned a r -> (List.length r < List.length s)%nat.

(** ** What [json.loads] reads back from the text of [json.dumps] *)

Definition escaped (s : str) : str := flat_map escape_char s.

(** What [json.loads] reads back from an escaped string: a high surrogate
    directly followed by a low one comes back as the one character they
    encode. *)
Fixpoint merge_surrogates (s : str) : str :=
  match s with
  | hi :: ((lo :: s'') as s') =>
      if is_high_surrogate hi && is_low_surrogate lo
      then join_surrogates hi lo :: merge_surrogates s''
      else hi :: merge_surrogates s'
  | _ => s
  end.

(** The four shapes of [escape_char]. *)
Inductive escape_shape (c : Z) : Prop :=
| EscShort (x : Z) :
    escape_char c = [92; x] -> BACKSLASH x = Some c -> (x =? 117) = false ->
    is_surrogate c = false -> escape_shape c
| EscLiteral :
    escape_char c = [c] -> (c =? 34) = false -> (c =? 92) = false ->
    (c <=? 0x1F) = false -> is_surrogate c = false -> escape_shape c
| EscUnit :
    escape_char c = u_escape c -> 0 <= c < 0x10000 -> escape_shape c
| EscPair (hi lo : Z) :
    escape_char c = u_escape hi ++ u_escape lo ->
    0 <= hi < 0x10000 -> 0 <= lo < 0x10000 ->
    is_high_surrogate hi = true -> is_low_surrogate lo = true ->
    join_surrogates hi lo = c -> is_surrogate c = false -> escape_shape c.

(** What may follow a number for [NUMBER_RE] to stop there: the end of the
    text, or a character that is neither a digit nor [.], [e], [E]. *)
Definition ends_number (rest : str) : bool :=
  match rest with
  | [] => true
  | c :: _ => negb (is_digit c) && negb (c =? 46) && negb (c =? 101) && negb (c =? 69)
  end.

Definition pyfloat_eqb (a b : pyfloat) : bool :=
  match a, b with
  | FNaN, FNaN => true
  | FInf x, FInf y => Bool.eqb x y
  | FDec s d e, FDec s' d' e' => Bool.eqb s s' && (d =? d')%N && (e =? e')
  | _, _ => false
  end.

(** The floats that come back from their text as they were: an infinity,
    or a finite float kept as the decimal its [repr] shows, so that
    [json.loads] reads the number [json.dumps] wrote for it as that same
    decimal.  Not-a-number is left out: it is written and read back, as
    [NaN], but it is not equal to itself. *)
Definition float_reads_back (float_repr : pyfloat -> str) (f : pyfloat) : bool :=
  match f with
  | FNaN => false
  | FInf _ => true
  | FDec _ _ _ =>
      match match_number (float_repr f) with
      | Some (VFloat f', []) => pyfloat_eqb f' f
      | _ => false
      end
  end.

(** The objects whose text is read back: every [str] in them is made of
    code points, and every [float] is one that reads back. *)
Fixpoint encodable (float_repr : pyfloat -> str) (v : value) : bool :=
  match v with
  | VNone | VBool _ | VInt _ => true
  | VFloat f => float_reads_back float_repr f
  | VStr s => valid_str s
  | VList l => forallb (encodable float_repr) l
  | VDict d =>
      forallb (fun kv => valid_str (fst kv) && encodable float_repr (snd kv)) d
  end.

(** What [json.loads] reads back from the text of an object: the same
    object, but for surrogate pairs, which come back joined, and keys that
    thereby become equal, of which the last one wins. *)
Fixpoint decoded (v : value) : value :=
  match v with
  | VStr s => VStr (merge_surrogates s)
  | VList l => VList (List.map decoded l)
  | VDict d =>
      VDict (dict_of_pairs
               (List.map (fun kv => (merge_surrogates (fst kv), decoded (snd kv))) d))
  | _ => v
  end.

(** [scan_once] reads the text of [v] back, whatever follows it and
    whatever the budget, as long as the budget exceeds the length of the
    text. *)
Definition reads_back (float_repr : pyfloat -> str) (v : value) : Prop :=
  encodable float_repr v = true ->
  forall (level : nat) (rest : str) (fuel : nat),
    ends_number rest = true ->
    Nat.lt (List.length (iterencode float_repr None level v ++ rest)) fuel ->
    scan_once fuel (iterencode float_repr None level v ++ rest)
    = Scanned (decoded v) rest.

(** The text of the items of a dict, from after the opening quote of the
    first key to the closing brace. *)
Fixpoint items_text (float_repr : pyfloat -> str) (level : nat)
         (kv : str * value) (d : list (str * value)) (rest : str) : str :=
  escaped (fst kv) ++ 34 :: 58 :: 32 :: iterencode float_repr None level (snd kv)
  ++ match d with
     | [] => 125 :: rest
     | kv' :: d' => 44 :: 32 :: 34 :: items_text float_repr level kv' d' rest
     end.

(** ** The requests that are read back as they were written *)

Definition is_ascii (c : Z) : bool := (0 <=? c) && (c <? 128).

(** No high surrogate directly followed by a low one. *)
Fixpoint no_pair (s : str) : bool :=
  match s with
  | hi :: ((lo :: _) as s') =>
      negb (is_high_surrogate hi && is_low_surrogate lo) && no_pair s'
  | _ => true
  end.

Fixpoint unique_keys (ks : list str) : bool :=
  match ks with
  | [] => true
  | k :: ks' => negb (existsb (str_eqb k) ks') && unique_keys ks'
  end.

(** The objects whose strings hold no surrogate pair and whose dicts have
    pairwise different keys (as every Python dict has). *)
Fixpoint plain (v : value) : bool :=
  match v with
  | VStr s => no_pair s
  | VList l => forallb plain l
  | VDict d =>
      forallb (fun kv => no_pair (fst kv) && plain (snd kv)) d
      && unique_keys (List.map fst d)
  | _ => true
  end.

(** The [op], [params] and [request_id] a caller can pass for the request
    to be read back as it was written: strings made of code points, no
    high surrogate directly followed by a low one in [op] or inside
    [params], pairwise different keys in every dict (as in every Python
    dict), and no not-a-number among the floats of [params], each of which
    is kept as the decimal its [repr] shows. *)
Definition valid_op (op : str) : bool := valid_str op && no_pair op.

Definition valid_params (w : World) (params : option dict) : bool :=
  match params with
  | None => true
  | Some d => encodable (repr_float w) (VDict d) && plain (VDict d)
  end.

Definition valid_request_id (request_id : option str) : bool :=
  match request_id with
  | None => true
  | Some r => valid_str r
  end.

(** The [params] of the request: the dict given, [{}] by default. *)
Definition params_sent (params : option dict) : dict :=
  match params with
  | Some d => d
  | None => []
  end.

(** [depth] dicts one inside the other around an empty one: [{}],
    [{"a": {}}], [{"a": {"a": {}}}], ... *)
Fixpoint nested_dict (depth : nat) : value :=
  match depth with
  | O => VDict []
  | S depth' => VDict [(lit "a", nested_dict depth')]
  end.

(* ================================================================= *)
(** * Facts about [json.loads]: the scanner always comes to an end *)

Lemma scan_map_scanned {A B} (f : A -> B) (r : scan A) b rest :
  scan_map f r = Scanned b rest -> exists a, r = Scanned a rest /\ b = f a.
Proof. destruct r; cbn; intros H; inversion H; subst; eauto. Qed.

Lemma scan_map_exhausted {A B} (f : A -> B) (r : scan A) :
  scan_map f r = Exhausted -> r = Exhausted.
Proof. destruct r; cbn; intros H; congruence. Qed.

Lemma skip_ws_length (s : str) : (List.length (skip_ws s) <= List.length s)%nat.
Proof.
  induction s as [|c s IH]; cbn; [lia|]. destruct (is_ws c); cbn; lia.
Qed.

Lemma scanstring_shorter_bounded (n : nat) :
  forall s a r, (List.length s <= n)%nat -> scanstring s = Scanned a r ->
                (List.length r < List.length s)%nat.
Proof.
  induction n as [|n IH]; intros s a r Hn H.
  - destruct s; [discriminate|cbn in Hn; lia].
  - destruct s as [|c s1]; [discriminate|].
    cbn [scanstring] in H.
    repeat match type of H with
           | (if ?b then _ else _) = _ => destruct b
           | match ?x with _ => _ end = _ => destruct x eqn:?
           end;
      try discriminate;
      try (inversion H; subst; cbn [List.length]; lia);
      try (apply scan_map_scanned in H; destruct H as (a' & H & _);
           apply IH in H; cbn [List.length] in *; lia).
Qed.

Lemma scanstring_shorter s a r :
  scanstring s = Scanned a r -> (List.length r < List.length s)%nat.
Proof. apply (scanstring_shorter_bounded (List.length s)). lia. Qed.

Lemma span_digits_length s ds r :
  span_digits s = (ds, r) -> List.length s = (List.length ds + List.length r)%nat.
Proof.
  revert ds r. induction s as [|c s IH]; cbn; intros ds r H.
  - inversion H; reflexivity.
  - destruct (is_digit c).
    + destruct (span_digits s) as [ds' r'] eqn:E. inversion H; subst.
      cbn. rewrite (IH ds' r eq_refl). lia.
    + inversion H; subst. reflexivity.
Qed.

Lemma match_integer_shorter s ds r :
  match_integer s = Some (ds, r) -> (List.length r < List.length s)%nat.
Proof.
  destruct s as [|c s]; cbn; [discriminate|].
  destruct (c =? 48); [intros H; inversion H; subst; cbn; lia|].
  destruct ((49 <=? c) && (c <=? 57)); [|discriminate].
  destruct (span_digits s) as [ds' r'] eqn:E. intros H; inversion H; subst.
  apply span_digits_length in E. cbn. lia.
Qed.

Lemma match_frac_le s ds r :
  match_frac s = (ds, r) -> (List.length r <= List.length s)%nat.
Proof.
  destruct s as [|c s]; cbn; [intros H; inversion H; subst; cbn; lia|].
  destruct (c =? 46); [|intros H; inversion H; subst; cbn; lia].
  destruct (span_digits s) as [ds' r'] eqn:E. apply span_digits_length in E.
  destruct ds'; intros H; inversion H; subst; cbn in *; lia.
Qed.

Lemma match_exp_le s ex r :
  match_exp s = (ex, r) -> (List.length r <= List.length s)%nat.
Proof.
  destruct s as [|c s1]; cbn; [intros H; inversion H; subst; cbn; lia|].
  destruct ((c =? 101) || (c =? 69)); [|intros H; inversion H; subst; cbn; lia].
  destruct s1 as [|d s2].
  - cbn. intros H; inversion H; subst; cbn; lia.
  - destruct (d =? 45); [|destruct (d =? 43)];
      match goal with |- context [span_digits ?t] =>
        destruct (span_digits t) as [ds' r'] eqn:E; apply span_digits_length in E end;
      destruct ds'; intros H; inversion H; subst; cbn in *; lia.
Qed.

Lemma match_number_shorter s v r :
  match_number s = Some (v, r) -> (List.length r < List.length s)%nat.
Proof.
  unfold match_number.
  destruct (match s with
            | [] => (false, s)
            | c :: s' => if c =? 45 then (true, s') else (false, s)
            end) as [negative s1] eqn:Hsign.
  assert (Hs1 : (List.length s1 <= List.length s)%nat).
  { destruct s as [|c s']; [inversion Hsign; subst; cbn; lia|].
    destruct (c =? 45); inversion Hsign; subst; cbn; lia. }
  destruct (match_integer s1) as [[ids s2]|] eqn:Hint; [|discriminate].
  apply match_integer_shorter in Hint.
  destruct (match_frac s2) as [fds s3] eqn:Hfrac. apply match_frac_le in Hfrac.
  destruct (match_exp s3) as [ex s4] eqn:Hexp. apply match_exp_le in Hexp.
  destruct fds; destruct ex; intros H; inversion H; subst; lia.
Qed.

Lemma after_prefix_length p s r :
  after_prefix p s = Some r -> List.length s = (List.length p + List.length r)%nat.
Proof.
  revert s. induction p as [|x p IH]; intros s; cbn.
  - intros H; inversion H; reflexivity.
  - destruct s as [|y s]; [discriminate|]. destruct (x =? y); [|discriminate].
    intros H. apply IH in H. cbn. lia.
Qed.

Lemma scan_constant_shorter s v r :
  scan_constant s = Scanned v r -> (List.length r < List.length s)%nat.
Proof.
  unfold scan_constant.
  repeat match goal with
         | |- match after_prefix ?p s with _ => _ end = _ -> _ =>
             let E := fresh "E" in
             destruct (after_prefix p s) eqn:E;
             [apply after_prefix_length in E; cbn in E;
              intros H; inversion H; subst; lia|]
         | |- match match_number s with _ => _ end = _ -> _ =>
             let E := fresh "E" in
             destruct (match_number s) as [[v' r']|] eqn:E;
             [apply match_number_shorter in E; intros H; inversion H; subst; lia|]
         end.
  discriminate.
Qed.

Lemma scan_constant_not_exhausted s : scan_constant s <> Exhausted.
Proof.
  unfold scan_constant.
  repeat match goal with
         | |- match ?x with _ => _ end <> _ => destruct x as [?|]
         | |- (let (_, _) := ?p in _) <> _ => destruct p
         end; discriminate.
Qed.

Lemma scanstring_not_exhausted_bounded (n : nat) :
  forall s, (List.length s <= n)%nat -> scanstring s <> Exhausted.
Proof.
  induction n as [|n IH]; intros s Hn H.
  - destruct s; [discriminate|cbn in Hn; lia].
  - destruct s as [|c s1]; [discriminate|].
    cbn [scanstring] in H.
    repeat match type of H with
           | (if ?b then _ else _) = _ => destruct b
           | match ?x with _ => _ end = _ => destruct x eqn:?
           end;
      try discriminate;
      try (apply scan_map_exhausted in H; apply IH in H;
           [exact H | cbn [List.length] in *; lia]).
Qed.

Lemma scanstring_not_exhausted s : scanstring s <> Exhausted.
Proof. apply (scanstring_not_exhausted_bounded (List.length s)). lia. Qed.

Lemma array_items_progresses (scan : str -> json.scan value) (fuel : nat) :
  forall s,
    (List.length s < fuel)%nat ->
    (forall t, (List.length t <= List.length s)%nat -> progresses scan t) ->
    progresses (array_items scan fuel) s.
Proof.
  induction fuel as [|fuel IH]; intros s Hlen Hscan; [lia|].
  unfold progresses. cbn [array_items].
  destruct (Hscan s (Nat.le_refl _)) as [Hne Hshort].
  destruct (scan s) as [v r| |] eqn:Es; [|split; intros; discriminate|congruence].
  specialize (Hshort v r eq_refl).
  pose proof (skip_ws_length r) as Hws.
  destruct (skip_ws r) as [|c r'] eqn:Er; [split; intros; discriminate|].
  cbn [List.length] in Hws.
  destruct (c =? 93); [split; [discriminate|intros a r0 H; inversion H; subst; lia]|].
  destruct (c =? 44); [|split; intros; discriminate].
  pose proof (skip_ws_length r') as Hws'.
  destruct (IH (skip_ws r')) as [Hne' Hshort'].
  - lia.
  - intros t Ht. apply Hscan. lia.
  - split.
    + intros H. apply scan_map_exhausted in H. contradiction.
    + intros a r0 H. apply scan_map_scanned in H. destruct H as (l & H & _).
      apply Hshort' in H. lia.
Qed.

Lemma object_items_progresses (scan : str -> json.scan value) (fuel : nat) :
  forall s,
    (List.length s < fuel)%nat ->
    (forall t, (List.length t <= List.length s)%nat -> progresses scan t) ->
    progresses (object_items scan fuel) s.
Proof.
  induction fuel as [|fuel IH]; intros s Hlen Hscan; [lia|].
  unfold progresses. cbn [object_items].
  pose proof (scanstring_not_exhausted s) as Hkne.
  destruct (scanstring s) as [key r| |] eqn:Ek; [|split; intros; discriminate|congruence].
  apply scanstring_shorter in Ek.
  pose proof (skip_ws_length r) as Hws.
  destruct (skip_ws r) as [|c r1] eqn:Er; [split; intros; discriminate|].
  cbn [List.length] in Hws.
  destruct (c =? 58); [|split; intros; discriminate].
  pose proof (skip_ws_length r1) as Hws1.
  destruct (Hscan (skip_ws r1)) as [Hne Hshort]; [lia|].
  destruct (scan (skip_ws r1)) as [v r2| |] eqn:Es; [|split; intros; discriminate|congruence].
  specialize (Hshort v r2 eq_refl).
  pose proof (skip_ws_length r2) as Hws2.
  destruct (skip_ws r2) as [|d r3] eqn:Er2; [split; intros; discriminate|].
  cbn [List.length] in Hws2.
  destruct (d =? 125); [split; [discriminate|intros a r0 H; inversion H; subst; lia]|].
  destruct (d =? 44); [|split; intros; discriminate].
  pose proof (skip_ws_length r3) as Hws3.
  destruct (skip_ws r3) as [|q r4] eqn:Er3; [split; intros; discriminate|].
  cbn [List.length] in Hws3.
  destruct (q =? 34); [|split; intros; discriminate].
  destruct (IH r4) as [Hne' Hshort'].
  - lia.
  - intros t Ht. apply Hscan. lia.
  - split.
    + intros H. apply scan_map_exhausted in H. contradiction.
    + intros a r0 H. apply scan_map_scanned in H. destruct H as (l & H & _).
      apply Hshort' in H. lia.
Qed.

Lemma scan_once_progresses (fuel : nat) :
  forall s, (List.length s < fuel)%nat -> progresses (scan_once fuel) s.
Proof.
  induction fuel as [|fuel IH]; intros s Hlen; [lia|].
  unfold progresses. cbn [scan_once].
  destruct s as [|c s']; [split; intros; discriminate|].
  cbn [List.length] in Hlen.
  destruct (c =? 34).
  { split.
    - intros H. apply scan_map_exhausted in H. now apply scanstring_not_exhausted in H.
    - intros a r H. apply scan_map_scanned in H. destruct H as (x & H & _).
      apply scanstring_shorter in H. cbn. lia. }
  destruct (c =? 123).
  { unfold JSONObject. pose proof (skip_ws_length s') as Hws.
    destruct (skip_ws s') as [|d t] eqn:Et; [split; intros; discriminate|].
    cbn [List.length] in Hws.
    destruct (d =? 125); [split; [discriminate|intros a r H; inversion H; subst; cbn; lia]|].
    destruct (d =? 34); [|split; intros; discriminate].
    destruct (object_items_progresses (scan_once fuel) fuel t) as [Hne Hshort].
    - lia.
    - intros u Hu. apply IH. lia.
    - split.
      + intros H. apply scan_map_exhausted in H. contradiction.
      + intros a r H. apply scan_map_scanned in H. destruct H as (l & H & _).
        apply Hshort in H. cbn. lia. }
  destruct (c =? 91).
  { unfold JSONArray. pose proof (skip_ws_length s') as Hws.
    destruct (skip_ws s') as [|d t] eqn:Et.
    - destruct (array_items_progresses (scan_once fuel) fuel []) as [Hne Hshort].
      + lia.
      + intros u Hu. apply IH. lia.
      + split.
        * intros H. apply scan_map_exhausted in H. contradiction.
        * intros a r H. apply scan_map_scanned in H. destruct H as (l & H & _).
          apply Hshort in H. cbn in *. lia.
    - cbn [List.length] in Hws.
      destruct (d =? 93); [split; [discriminate|intros a r H; inversion H; subst; cbn; lia]|].
      destruct (array_items_progresses (scan_once fuel) fuel (d :: t)) as [Hne Hshort].
      + cbn. lia.
      + intros u Hu. apply IH. cbn in Hu. lia.
      + split.
        * intros H. apply scan_map_exhausted in H. contradiction.
        * intros a r H. apply scan_map_scanned in H. destruct H as (l & H & _).
          apply Hshort in H. cbn in *. lia. }
  split.
  - apply scan_constant_not_exhausted.
  - intros a r H. apply scan_constant_shorter in H. exact H.
Qed.

(* ================================================================= *)
(** * Facts about [run_validate] *)

Section validate_facts.

Variable w : World.

Lemma run_validate_exited (proc : CompletedProcess) :
  spawn w validate_args None = Exited proc ->
  run_validate w =
  ([Spawn validate_args None],
   Return [ (lit "envelope_version", VStr (lit "1.0.0"));
            (lit "cmd", VStr (lit "validate"));
            (lit "status", VStr (if returncode proc =? 0 then lit "ok" else lit "error"));
            (lit "exit_code", VInt (returncode proc));
            (lit "stdout", VStr (decode_utf8_replace (stdout proc)));
            (lit "stderr", VStr (decode_utf8_replace (stderr proc))) ]).
Proof.
  intros Hsp. unfold run_validate, bind, subprocess.run, ret.
  rewrite Hsp. reflexivity.
Qed.

Lemma run_validate_spawn_failed (e : os_error) :
  spawn w validate_args None = SpawnFailed e ->
  run_validate w = ([Spawn validate_args None], Raise (OSError e)).
Proof.
  intros Hsp. unfold run_validate, bind, subprocess.run.
  rewrite Hsp. reflexivity.
Qed.

End validate_facts.

(** C1.  Whenever the [decapod validate] child process ran to an exit code,
    [run_validate] returns (it does not raise) a dict with exactly the six
    keys [envelope_version], [cmd], [status], [exit_code], [stdout],
    [stderr], in which [envelope_version] is ["1.0.0"], [cmd] is
    ["validate"], [exit_code] is the exit code of the child, [stdout] and
    [stderr] are its captured streams decoded with replacement, and
    [status] is ["ok"] when the exit code is zero and ["error"] otherwise;
    so it is for the exit codes 0, 1 and 127. *)
Theorem run_validate_envelope (w : World) (proc : CompletedProcess) :
  spawn w validate_args None = Exited proc ->
  exists env : dict,
    run_validate w = ([Spawn validate_args None], Return env)
    /\ List.map fst env =
       [lit "envelope_version"; lit "cmd"; lit "status"; lit "exit_code";
        lit "stdout"; lit "stderr"]
    /\ dict_lookup env (lit "envelope_version") = Some (VStr (lit "1.0.0"))
    /\ dict_lookup env (lit "cmd") = Some (VStr (lit "validate"))
    /\ dict_lookup env (lit "exit_code") = Some (VInt (returncode proc))
    /\ dict_lookup env (lit "stdout") = Some (VStr (decode_utf8_replace (stdout proc)))
    /\ dict_lookup env (lit "stderr") = Some (VStr (decode_utf8_replace (stderr proc)))
    /\ (returncode proc = 0 -> dict_lookup env (lit "status") = Some (VStr (lit "ok")))
    /\ (returncode proc <> 0 -> dict_lookup env (lit "status") = Some (VStr (lit "error")))
    /\ (returncode proc = 1 \/ returncode proc = 127 ->
        dict_lookup env (lit "status") = Some (VStr (lit "error"))).
Proof.
  intros Hsp. eexists. split; [apply (run_validate_exited w proc Hsp)|].
  repeat split; try reflexivity.
  - intros ->. reflexivity.
  - intros Hrc. apply Z.eqb_neq in Hrc. cbn. rewrite Hrc. reflexivity.
  - intros [-> | ->]; reflexivity.
Qed.

Lemma run_validate_envelope_witness :
  spawn (world_exiting {| returncode := 127; stdout := blit "out"; stderr := blit "err" |})
        validate_args None
  = Exited {| returncode := 127; stdout := blit "out"; stderr := blit "err" |}
  /\ exists env : dict,
      run_validate (world_exiting {| returncode := 127; stdout := blit "out"; stderr := blit "err" |})
      = ([Spawn validate_args None], Return env)
      /\ dict_lookup env (lit "status") = Some (VStr (lit "error"))
      /\ dict_lookup env (lit "exit_code") = Some (VInt 127)
      /\ dict_lookup env (lit "stdout") = Some (VStr (lit "out")).
Proof.
  split; [reflexivity|].
  destruct (run_validate_envelope
              (world_exiting {| returncode := 127; stdout := blit "out"; stderr := blit "err" |})
              {| returncode := 127; stdout := blit "out"; stderr := blit "err" |}
              eq_refl)
    as (env & Hrun & _ & _ & _ & Hcode & Hout & _ & _ & Hstatus & _).
  exists env. repeat split.
  - exact Hrun.
  - apply Hstatus. discriminate.
  - exact Hcode.
  - exact Hout.
Defined.

(* ================================================================= *)
(** * Facts about [run_rpc]: how a call ends *)

Section rpc_facts.

Variables (w : World) (op : str) (params : option dict) (request_id : option str).
Variable input : bytes.
Hypothesis serialised :
  rpc_input w (rpc_payload w op params request_id) = Return input.

Lemma run_rpc_spawn_failed (e : os_error) :
  spawn w rpc_args (Some input) = SpawnFailed e ->
  run_rpc w op params request_id = ([Spawn rpc_args (Some input)], Raise (OSError e)).
Proof.
  intros Hsp. unfold run_rpc, bind, lift, subprocess.run.
  rewrite serialised, Hsp. reflexivity.
Qed.

Lemma run_rpc_nonzero (proc : CompletedProcess) :
  spawn w rpc_args (Some input) = Exited proc ->
  returncode proc <> 0 ->
  run_rpc w op params request_id =
  ([Spawn rpc_args (Some input)],
   Raise (RuntimeError (strip (decode_utf8_replace (stderr proc))))).
Proof.
  intros Hsp Hrc. apply Z.eqb_neq in Hrc.
  unfold run_rpc, bind, lift, subprocess.run, raise.
  rewrite serialised, Hsp, Hrc. reflexivity.
Qed.

Lemma run_rpc_zero (proc : CompletedProcess) :
  spawn w rpc_args (Some input) = Exited proc ->
  returncode proc = 0 ->
  run_rpc w op params request_id =
  ([Spawn rpc_args (Some input)],
   rpc_reply (payload_id w request_id) (stdout proc)).
Proof.
  intros Hsp Hrc.
  unfold run_rpc, rpc_reply, bind, lift, subprocess.run, raise, ret.
  rewrite serialised, Hsp, Hrc. cbn [Z.eqb negb app].
  destruct (decode_utf8 (stdout proc)) as [text|e]; [|reflexivity].
  cbn [obind]. destruct (json.loads text) as [reply|e]; [|reflexivity].
  cbn [obind]. destruct reply; reflexivity.
Qed.

End rpc_facts.

Lemma strip_boom : strip (decode_utf8_replace (blit "boom")) = lit "boom".
Proof. reflexivity. Qed.

(** C2.  Whenever the child process of [run_rpc] exits with a code other
    than zero, [run_rpc] raises the error the spec calls RpcInvocationError
    (the class the code raises is Python's [RuntimeError]) whose message is
    the stderr of the child, decoded with replacement and stripped; with
    exit code 1 and [boom] on stderr the message is exactly ["boom"]. *)
Theorem run_rpc_nonzero_exit_raises (w : World) (op : str) (params : option dict)
        (request_id : option str) (input : bytes) (proc : CompletedProcess) :
  rpc_input w (rpc_payload w op params request_id) = Return input ->
  spawn w rpc_args (Some input) = Exited proc ->
  returncode proc <> 0 ->
  run_rpc w op params request_id =
    ([Spawn rpc_args (Some input)],
     Raise (RuntimeError (strip (decode_utf8_replace (stderr proc)))))
  /\ (returncode proc = 1 -> stderr proc = blit "boom" ->
      result (run_rpc w op params request_id) = Raise (RuntimeError (lit "boom"))).
Proof.
  intros Hin Hsp Hrc.
  pose proof (run_rpc_nonzero w op params request_id input Hin proc Hsp Hrc) as Hrun.
  split; [exact Hrun|].
  intros _ Herr. rewrite Hrun, Herr. cbn [result snd]. now rewrite strip_boom.
Qed.

Lemma run_rpc_nonzero_exit_raises_witness :
  exists input : bytes,
    rpc_input (world_exiting proc_boom)
              (rpc_payload (world_exiting proc_boom) (lit "ping") None None)
    = Return input
    /\ spawn (world_exiting proc_boom) rpc_args (Some input) = Exited proc_boom
    /\ returncode proc_boom <> 0
    /\ result (run_rpc (world_exiting proc_boom) (lit "ping") None None)
       = Raise (RuntimeError (lit "boom")).
Proof.
  eexists. split; [vm_compute; reflexivity|].
  split; [reflexivity|]. split; [discriminate|].
  refine (proj2 (run_rpc_nonzero_exit_raises (world_exiting proc_boom) (lit "ping")
                   None None _ proc_boom _ eq_refl _) eq_refl eq_refl).
  - vm_compute; reflexivity.
  - discriminate.
Defined.

(** C5.  When the child process cannot be started, both functions let the
    [OSError] of the spawn reach the caller: [run_rpc] does not turn it into
    the [RuntimeError] it raises for a non-zero exit, and [run_validate]
    does not return an envelope. *)
Theorem spawn_failure_is_raised (w : World) (e : os_error) :
  (forall op params request_id input,
      rpc_input w (rpc_payload w op params request_id) = Return input ->
      spawn w rpc_args (Some input) = SpawnFailed e ->
      run_rpc w op params request_id
      = ([Spawn rpc_args (Some input)], Raise (OSError e))
      /\ (forall msg, result (run_rpc w op params request_id) <> Raise (RuntimeError msg))
      /\ (forall resp, result (run_rpc w op params request_id) <> Return resp))
  /\ (spawn w validate_args None = SpawnFailed e ->
      run_validate w = ([Spawn validate_args None], Raise (OSError e))
      /\ (forall env, result (run_validate w) <> Return env)).
Proof.
  split.
  - intros op params request_id input Hin Hsp.
    pose proof (run_rpc_spawn_failed w op params request_id input Hin e Hsp) as Hrun.
    split; [exact Hrun|]. rewrite Hrun. split; intros; discriminate.
  - intros Hsp. pose proof (run_validate_spawn_failed w e Hsp) as Hrun.
    split; [exact Hrun|]. rewrite Hrun. intros; discriminate.
Qed.

Lemma spawn_failure_is_raised_witness :
  result (run_rpc world_without_decapod (lit "ping") None None)
  = Raise (OSError FileNotFoundError)
  /\ result (run_validate world_without_decapod) = Raise (OSError FileNotFoundError).
Proof.
  destruct (spawn_failure_is_raised world_without_decapod FileNotFoundError)
    as [Hrpc Hval].
  split.
  - destruct (rpc_input world_without_decapod
                (rpc_payload world_without_decapod (lit "ping") None None))
      as [input|] eqn:Hin; [|vm_compute in Hin; discriminate].
    destruct (Hrpc (lit "ping") None None input Hin eq_refl) as [Hrun _].
    rewrite Hrun. reflexivity.
  - destruct (Hval eq_refl) as [Hrun _]. rewrite Hrun. reflexivity.
Defined.

(* ================================================================= *)
(** * Facts about [run_rpc]: the reply *)

Lemma rpc_reply_object (own_id : str) (out : bytes) (text : str) (R : dict) :
  decode_utf8 out = Return text ->
  loads text = Return (VDict R) ->
  rpc_reply own_id out =
  Return {| id := dict_get R (lit "id") (VStr own_id);
            success := truthy (dict_get R (lit "success") (VBool false));
            raw := R |}.
Proof. intros Hdec Hloads. unfold rpc_reply. rewrite Hdec. cbn. now rewrite Hloads. Qed.

(** C3, amended.  Whenever the child process of [run_rpc] exits 0 and its
    stdout decodes to a JSON object [R], [run_rpc] returns a response whose
    [raw] is [R], whose [id] is the ["id"] item of [R] when there is one and
    the id of the request otherwise, and whose [success] is the truth value
    ([bool]) of the ["success"] item of [R] when there is one, hence that
    item itself when it is a JSON boolean, and [False] otherwise.  For the
    reply [{"success": true}], [success] is [True] and [id] is the id of
    the request. *)
Theorem run_rpc_response (w : World) (op : str) (params : option dict)
        (request_id : option str) (input : bytes) (proc : CompletedProcess)
        (text : str) (R : dict) :
  rpc_input w (rpc_payload w op params request_id) = Return input ->
  spawn w rpc_args (Some input) = Exited proc ->
  returncode proc = 0 ->
  decode_utf8 (stdout proc) = Return text ->
  loads text = Return (VDict R) ->
  exists resp : RpcResponse,
    run_rpc w op params request_id = ([Spawn rpc_args (Some input)], Return resp)
    /\ raw resp = R
    /\ id resp = match dict_lookup R (lit "id") with
                 | Some v => v
                 | None => VStr (payload_id w request_id)
                 end
    /\ success resp = match dict_lookup R (lit "success") with
                      | Some v => truthy v
                      | None => false
                      end
    /\ (forall b, dict_lookup R (lit "success") = Some (VBool b) -> success resp = b)
    /\ (stdout proc = reply_success_true ->
        success resp = true /\ id resp = VStr (payload_id w request_id)).
Proof.
  intros Hin Hsp Hrc Hdec Hloads.
  eexists. split.
  { rewrite (run_rpc_zero w op params request_id input Hin proc Hsp Hrc).
    now rewrite (rpc_reply_object _ _ text R Hdec Hloads). }
  cbn [raw id success]. unfold dict_get.
  split; [reflexivity|]. split; [reflexivity|].
  split; [destruct (dict_lookup R (lit "success")); reflexivity|].
  split.
  - intros b Hb. now rewrite Hb.
  - intros Hout. rewrite Hout in Hdec. vm_compute in Hdec.
    injection Hdec as <-. vm_compute in Hloads. injection Hloads as <-.
    split; reflexivity.
Qed.

Lemma run_rpc_response_witness :
  exists resp : RpcResponse,
    result (run_rpc (world_exiting (proc_replying reply_success_true))
                    (lit "ping") None (Some (lit "req-1")))
    = Return resp
    /\ raw resp = [(lit "success", VBool true)]
    /\ success resp = true
    /\ id resp = VStr (lit "req-1").
Proof.
  destruct (rpc_input (world_exiting (proc_replying reply_success_true))
              (rpc_payload (world_exiting (proc_replying reply_success_true))
                           (lit "ping") None (Some (lit "req-1"))))
    as [input|] eqn:Hin; [|vm_compute in Hin; discriminate].
  destruct (run_rpc_response (world_exiting (proc_replying reply_success_true))
              (lit "ping") None (Some (lit "req-1")) input
              (proc_replying reply_success_true)
              (lit "{" ++ [34] ++ lit "success" ++ [34] ++ lit ": true}")
              [(lit "success", VBool true)]
              Hin eq_refl eq_refl eq_refl eq_refl)
    as (resp & Hrun & Hraw & _ & _ & _ & Hparticular).
  exists resp. rewrite Hrun. destruct (Hparticular eq_refl) as [Hs Hi].
  repeat split; assumption.
Defined.

(** C3 as stated fails: on the reply [{"success": "false"}] the [success]
    of the response is [True], which is not the ["success"] item of the
    reply (the string ["false"]). *)
Lemma run_rpc_success_is_not_the_item :
  exists resp : RpcResponse,
    result (run_rpc (world_exiting (proc_replying reply_success_text))
                    (lit "ping") None None)
    = Return resp
    /\ dict_lookup (raw resp) (lit "success") = Some (VStr (lit "false"))
    /\ success resp = true
    /\ Some (VBool (success resp)) <> dict_lookup (raw resp) (lit "success").
Proof.
  eexists. split; [vm_compute; reflexivity|].
  split; [reflexivity|]. split; [reflexivity|]. discriminate.
Qed.

(** C9.  Whenever the child process of [run_rpc] exits 0 and its stdout
    decodes to a JSON object with a ["success"] item [v], the [success] of
    the response is the boolean [bool(v)]: [True] for the string ["false"],
    [False] for the number [0]. *)
Theorem run_rpc_success_truthiness (w : World) (op : str) (params : option dict)
        (request_id : option str) (input : bytes) (proc : CompletedProcess)
        (text : str) (R : dict) (v : value) :
  rpc_input w (rpc_payload w op params request_id) = Return input ->
  spawn w rpc_args (Some input) = Exited proc ->
  returncode proc = 0 ->
  decode_utf8 (stdout proc) = Return text ->
  loads text = Return (VDict R) ->
  dict_lookup R (lit "success") = Some v ->
  exists resp : RpcResponse,
    run_rpc w op params request_id = ([Spawn rpc_args (Some input)], Return resp)
    /\ success resp = truthy v
    /\ (v = VStr (lit "false") -> success resp = true)
    /\ (v = VInt 0 -> success resp = false).
Proof.
  intros Hin Hsp Hrc Hdec Hloads Hv.
  eexists. split.
  { rewrite (run_rpc_zero w op params request_id input Hin proc Hsp Hrc).
    now rewrite (rpc_reply_object _ _ text R Hdec Hloads). }
  cbn [success]. unfold dict_get. rewrite Hv.
  split; [reflexivity|]. split; intros ->; reflexivity.
Qed.

Lemma run_rpc_success_truthiness_witness :
  exists resp : RpcResponse,
    result (run_rpc (world_exiting (proc_replying reply_success_zero))
                    (lit "ping") None None)
    = Return resp
    /\ success resp = false.
Proof.
  destruct (rpc_input (world_exiting (proc_replying reply_success_zero))
              (rpc_payload (world_exiting (proc_replying reply_success_zero))
                           (lit "ping") None None))
    as [input|] eqn:Hin; [|vm_compute in Hin; discriminate].
  destruct (run_rpc_success_truthiness
              (world_exiting (proc_replying reply_success_zero))
              (lit "ping") None None input (proc_replying reply_success_zero)
              (lit "{" ++ [34] ++ lit "success" ++ [34] ++ lit ": 0}")
              [(lit "success", VInt 0)] (VInt 0)
              Hin eq_refl eq_refl eq_refl eq_refl eq_refl)
    as (resp & Hrun & Hs & _ & Hzero).
  exists resp. rewrite Hrun. split; [reflexivity|exact (Hzero eq_refl)].
Defined.

Lemma rpc_reply_malformed (own_id : str) (out : bytes) (e : exn) :
  reply_json out = Raise e -> rpc_reply own_id out = Raise e.
Proof.
  unfold reply_json, rpc_reply.
  destruct (decode_utf8 out) as [text|e']; cbn [obind]; [|congruence].
  destruct (loads text); cbn [obind]; [discriminate|congruence].
Qed.

(** C4, amended.  [run_rpc] does not catch the failure of decoding the
    reply: whenever the child process exits 0 and its stdout is not valid
    JSON, so that decoding it raises an error, that very error reaches the
    caller of [run_rpc], and no response is returned. *)
Theorem run_rpc_malformed_reply_raises (w : World) (op : str) (params : option dict)
        (request_id : option str) (input : bytes) (proc : CompletedProcess)
        (e : exn) :
  rpc_input w (rpc_payload w op params request_id) = Return input ->
  spawn w rpc_args (Some input) = Exited proc ->
  returncode proc = 0 ->
  reply_json (stdout proc) = Raise e ->
  run_rpc w op params request_id = ([Spawn rpc_args (Some input)], Raise e)
  /\ (forall resp, result (run_rpc w op params request_id) <> Return resp).
Proof.
  intros Hin Hsp Hrc Hbad.
  assert (Hrun : run_rpc w op params request_id
                 = ([Spawn rpc_args (Some input)], Raise e)).
  { rewrite (run_rpc_zero w op params request_id input Hin proc Hsp Hrc).
    now rewrite (rpc_reply_malformed _ _ e Hbad). }
  split; [exact Hrun|]. rewrite Hrun. intros resp. discriminate.
Qed.

Lemma run_rpc_malformed_reply_raises_witness :
  reply_json (blit "not json") = Raise (JSONDecodeError ExpectingValue)
  /\ result (run_rpc (world_exiting (proc_replying (blit "not json")))
                     (lit "ping") None None)
     = Raise (JSONDecodeError ExpectingValue).
Proof.
  split; [reflexivity|].
  destruct (rpc_input (world_exiting (proc_replying (blit "not json")))
              (rpc_payload (world_exiting (proc_replying (blit "not json")))
                           (lit "ping") None None))
    as [input|] eqn:Hin; [|vm_compute in Hin; discriminate].
  destruct (run_rpc_malformed_reply_raises
              (world_exiting (proc_replying (blit "not json")))
              (lit "ping") None None input (proc_replying (blit "not json"))
              (JSONDecodeError ExpectingValue) Hin eq_refl eq_refl eq_refl)
    as [Hrun _].
  rewrite Hrun. reflexivity.
Defined.

(** C4 as stated fails: a child process that exits 0 and prints [oops],
    which is not JSON, makes [run_rpc] raise the parse error. *)
Lemma run_rpc_parse_error_reaches_caller :
  returncode (proc_replying (blit "oops")) = 0
  /\ reply_json (blit "oops") = Raise (JSONDecodeError ExpectingValue)
  /\ result (run_rpc (world_exiting (proc_replying (blit "oops")))
                     (lit "ping") None None)
     = Raise (JSONDecodeError ExpectingValue).
Proof. repeat split; vm_compute; reflexivity. Qed.

(* ================================================================= *)
(** * Facts about [uuid.uuid4] *)

Lemma nibble_range n k : 0 <= nibble n k < 16.
Proof.
  unfold nibble. change 15 with (Z.ones 4). rewrite Z.land_ones by lia.
  apply Z.mod_pos_bound. reflexivity.
Qed.

Lemma is_lower_hex_digit v : 0 <= v < 16 -> is_lower_hex (json.hex_digit v) = true.
Proof.
  intros Hv. unfold json.hex_digit, is_lower_hex.
  destruct (Z.ltb_spec v 10); apply orb_true_iff; [left|right];
    apply andb_true_iff; split; apply Z.leb_le; lia.
Qed.

Lemma hex32_nibbles n :
  uuid.hex32 n = List.map (fun k => json.hex_digit (nibble n k)) (rev (seq 0 32)).
Proof. reflexivity. Qed.

Lemma testbit_small a i : 0 <= a < 16 -> 4 <= i -> Z.testbit a i = false.
Proof.
  intros Ha Hi. destruct (Z.eq_dec a 0) as [->|Hne]; [apply Z.bits_0|].
  apply Z.bits_above_log2; [lia|].
  assert (Z.log2 a < 4) by (apply Z.log2_lt_pow2; lia). lia.
Qed.

Lemma version_nibble b : nibble (uuid.UUID b) 19 = 4.
Proof.
  unfold nibble, uuid.UUID. change (4 * Z.of_nat 19) with 76.
  apply Z.bits_inj'. intros i Hi.
  rewrite Z.land_spec, Z.shiftr_spec by lia.
  destruct (Z.ltb_spec i 4) as [Hlt|Hge].
  - rewrite Z.lor_spec, Z.land_spec, Z.lnot_spec by lia.
    rewrite !Z.shiftl_spec by lia.
    replace (i + 76 - 64) with (i + 12) by lia.
    replace (i + 76 - 76) with i by lia.
    assert (Hi4 : i = 0 \/ i = 1 \/ i = 2 \/ i = 3) by lia.
    destruct Hi4 as [-> | [-> | [-> | ->]]]; cbn;
      rewrite andb_false_r; reflexivity.
  - rewrite (testbit_small 15 i), (testbit_small 4 i) by lia.
    apply andb_false_r.
Qed.

Lemma variant_bits b :
  Z.testbit (nibble (uuid.UUID b) 15) 3 = true
  /\ Z.testbit (nibble (uuid.UUID b) 15) 2 = false.
Proof.
  unfold nibble, uuid.UUID. change (4 * Z.of_nat 15) with 60.
  rewrite !Z.land_spec, !Z.shiftr_spec by lia.
  rewrite !Z.lor_spec, !Z.land_spec, !Z.lnot_spec by lia.
  rewrite !Z.lor_spec, !Z.land_spec, !Z.lnot_spec by lia.
  rewrite !Z.shiftl_spec by lia. cbn.
  split.
  - rewrite orb_true_r. reflexivity.
  - rewrite !andb_false_r. reflexivity.
Qed.

Lemma variant_nibble b :
  let v := nibble (uuid.UUID b) 15 in v = 8 \/ v = 9 \/ v = 10 \/ v = 11.
Proof.
  intros v. destruct (variant_bits b) as [H3 H2]. fold v in H3, H2.
  pose proof (nibble_range (uuid.UUID b) 15) as Hr. fold v in Hr.
  assert (Hv : v = 0 \/ v = 1 \/ v = 2 \/ v = 3 \/ v = 4 \/ v = 5 \/ v = 6 \/ v = 7
               \/ v = 8 \/ v = 9 \/ v = 10 \/ v = 11
               \/ v = 12 \/ v = 13 \/ v = 14 \/ v = 15) by lia.
  clearbody v.
  repeat (destruct Hv as [-> | Hv]; [first [discriminate | lia]|]).
  subst v. discriminate.
Qed.

Lemma uuid4_to_str_valid b : is_uuid4 (uuid.to_str (uuid.UUID b)) = true.
Proof.
  unfold is_uuid4, uuid.to_str. rewrite hex32_nibbles.
  set (n := uuid.UUID b).
  cbn [rev seq app List.map firstn skipn List.length Nat.eqb andb
       uuid4_chars_ok uuid4_char_ok existsb orb].
  rewrite !is_lower_hex_digit by apply nibble_range.
  subst n. rewrite version_nibble.
  destruct (variant_nibble b) as [-> | [-> | [-> | ->]]]; reflexivity.
Qed.

Lemma byte_val_range (b : byte) : 0 <= byte_val b < 256.
Proof.
  unfold byte_val. pose proof (Byte.to_N_bounded b) as H. lia.
Qed.

Lemma int_from_bytes_acc (b : bytes) :
  forall acc, 0 <= acc ->
    0 <= fold_left (fun a x => a * 256 + byte_val x) b acc
    < (acc + 1) * 256 ^ Z.of_nat (List.length b).
Proof.
  induction b as [|x b IH]; intros acc Hacc.
  - cbn. lia.
  - cbn [fold_left List.length]. pose proof (byte_val_range x) as Hx.
    specialize (IH (acc * 256 + byte_val x) ltac:(lia)).
    rewrite Nat2Z.inj_succ, Z.pow_succ_r by lia.
    assert (0 < 256 ^ Z.of_nat (List.length b)) by (apply Z.pow_pos_nonneg; lia).
    nia.
Qed.

Lemma int_from_bytes_range (b : bytes) :
  0 <= uuid.int_from_bytes b < 256 ^ Z.of_nat (List.length b).
Proof.
  unfold uuid.int_from_bytes.
  pose proof (int_from_bytes_acc b 0 ltac:(lia)) as H. lia.
Qed.

Lemma fits128_of_range n : 0 <= n < 2 ^ 128 -> fits128 n.
Proof.
  intros Hn i Hi. destruct (Z.eq_dec n 0) as [->|Hne]; [apply Z.bits_0|].
  apply Z.bits_above_log2; [lia|].
  assert (Z.log2 n < 128) by (apply Z.log2_lt_pow2; lia). lia.
Qed.

Lemma range_of_fits128 n : 0 <= n -> fits128 n -> n < 2 ^ 128.
Proof.
  intros Hn Hfit. destruct (Z.eq_dec n 0) as [->|Hne]; [reflexivity|].
  apply Z.log2_lt_pow2; [lia|].
  destruct (Z.lt_ge_cases (Z.log2 n) 128) as [Hlt|Hge]; [exact Hlt|].
  specialize (Hfit (Z.log2 n) Hge). rewrite Z.bit_log2 in Hfit by lia. discriminate.
Qed.

(** [UUID(bytes=b, version=4).int] is a 128-bit number, as ['%032x'] needs
    it to print 32 digits. *)
Lemma UUID_range (b : bytes) :
  List.length b = 16%nat -> 0 <= uuid.UUID b < 2 ^ 128.
Proof.
  intros Hlen. pose proof (int_from_bytes_range b) as Hb. rewrite Hlen in Hb.
  change (256 ^ Z.of_nat 16) with (2 ^ 128) in Hb.
  pose proof (fits128_of_range _ Hb) as Hfit.
  unfold uuid.UUID. split.
  - apply Z.lor_nonneg. split; [|cbn; lia].
    apply Z.land_nonneg. left. apply Z.lor_nonneg. split; [|cbn; lia].
    apply Z.land_nonneg. left. lia.
  - apply range_of_fits128.
    + apply Z.lor_nonneg. split; [|cbn; lia].
      apply Z.land_nonneg. left. apply Z.lor_nonneg. split; [|cbn; lia].
      apply Z.land_nonneg. left. lia.
    + intros i Hi.
      rewrite Z.lor_spec, Z.land_spec, Z.lor_spec, Z.land_spec, (Hfit i Hi).
      rewrite !Z.shiftl_spec by lia.
      rewrite (testbit_small 4 (i - 76)) by lia.
      assert (H8 : Z.testbit 32768 (i - 48) = false).
      { apply Z.bits_above_log2; [lia|]. cbn. lia. }
      rewrite H8. reflexivity.
Qed.

Lemma os_urandom_length (w : World) (n : nat) : List.length (os_urandom w n) = n.
Proof. unfold os_urandom. now rewrite length_map, length_seq. Qed.

Lemma uuid4_range (w : World) : 0 <= uuid.uuid4 w < 2 ^ 128.
Proof. apply UUID_range, os_urandom_length. Qed.

Lemma uuid4_valid (w : World) : is_uuid4 (uuid.to_str (uuid.uuid4 w)) = true.
Proof. apply uuid4_to_str_valid. Qed.

(** C6.  When [request_id] is omitted, the id [run_rpc] puts in the request
    is the text of [uuid.uuid4()], a syntactically valid version 4 UUID
    whatever the random bytes are; and when the child process exits 0 with
    a JSON object that has no ["id"] item, that same id is the [id] of the
    response. *)
Theorem omitted_request_id_is_uuid4 (w : World) (op : str) (params : option dict) :
  dict_lookup (rpc_payload w op params None) (lit "id")
  = Some (VStr (uuid.to_str (uuid.uuid4 w)))
  /\ is_uuid4 (uuid.to_str (uuid.uuid4 w)) = true
  /\ (forall input proc text R,
         rpc_input w (rpc_payload w op params None) = Return input ->
         spawn w rpc_args (Some input) = Exited proc ->
         returncode proc = 0 ->
         decode_utf8 (stdout proc) = Return text ->
         loads text = Return (VDict R) ->
         dict_lookup R (lit "id") = None ->
         exists resp : RpcResponse,
           run_rpc w op params None = ([Spawn rpc_args (Some input)], Return resp)
           /\ id resp = VStr (uuid.to_str (uuid.uuid4 w))).
Proof.
  split; [reflexivity|]. split; [apply uuid4_valid|].
  intros input proc text R Hin Hsp Hrc Hdec Hloads Hid.
  eexists. split.
  { rewrite (run_rpc_zero w op params None input Hin proc Hsp Hrc).
    now rewrite (rpc_reply_object _ _ text R Hdec Hloads). }
  cbn [id]. unfold dict_get. rewrite Hid. reflexivity.
Qed.

Lemma omitted_request_id_is_uuid4_witness :
  is_uuid4 (lit "00010203-0405-4607-8809-0a0b0c0d0e0f") = true
  /\ exists resp : RpcResponse,
      result (run_rpc (world_exiting (proc_replying reply_success_true))
                      (lit "ping") None None)
      = Return resp
      /\ id resp = VStr (lit "00010203-0405-4607-8809-0a0b0c0d0e0f").
Proof.
  destruct (rpc_input (world_exiting (proc_replying reply_success_true))
              (rpc_payload (world_exiting (proc_replying reply_success_true))
                           (lit "ping") None None))
    as [input|] eqn:Hin; [|vm_compute in Hin; discriminate].
  destruct (omitted_request_id_is_uuid4
              (world_exiting (proc_replying reply_success_true)) (lit "ping") None)
    as (_ & Hvalid & Hecho).
  split; [exact Hvalid|].
  destruct (Hecho input (proc_replying reply_success_true)
              (lit "{" ++ [34] ++ lit "success" ++ [34] ++ lit ": true}")
              [(lit "success", VBool true)]
              Hin eq_refl eq_refl eq_refl eq_refl eq_refl)
    as (resp & Hrun & Hid).
  exists resp. rewrite Hrun. split; [reflexivity|exact Hid].
Defined.

(* ================================================================= *)
(** * Facts about the demo *)

Lemma main_fixture (w : World) (path : str) (content : bytes) (d : dict) :
  path <> [] ->
  read_file w path = FileBytes content ->
  file_json content = Return (VDict d) ->
  main w (Some path) =
  ([OpenFile path;
    Print (dumps (repr_float w) (Some 2%nat)
             (VDict [ (lit "demo", VStr (lit "python"));
                      (lit "status", dict_get d (lit "status") (VStr (lit "unknown"))) ]))],
   Return 0).
Proof.
  intros Hpath Hfile Hjson. unfold main.
  destruct path as [|c path]; [congruence|]. cbn [given_path].
  unfold read_text, file_json, bind, lift, print, ret in *. rewrite Hfile.
  destruct (decode_utf8 content) as [s|e]; cbn [obind] in *; [|discriminate].
  rewrite Hjson. reflexivity.
Qed.

(** C8.  When the demo is run with [--fixture] naming a readable file (its
    path is then not the empty string) whose content is the JSON object
    [{"status": "ok"}], it opens that file,
    starts no child process, prints one JSON object in which ["demo"] is
    ["python"] and ["status"] is ["ok"], and returns 0. *)
Theorem demo_with_fixture (w : World) (path : str) (content : bytes) :
  path <> [] ->
  read_file w path = FileBytes content ->
  file_json content = Return (VDict [(lit "status", VStr (lit "ok"))]) ->
  main w (Some path) = ([OpenFile path; Print demo_output_ok], Return 0)
  /\ (forall args input, ~ In (Spawn args input) (trace (main w (Some path))))
  /\ exists printed : dict,
      loads demo_output_ok = Return (VDict printed)
      /\ dict_lookup printed (lit "status") = Some (VStr (lit "ok"))
      /\ dict_lookup printed (lit "demo") = Some (VStr (lit "python")).
Proof.
  intros Hpath Hfile Hjson.
  pose proof (main_fixture w path content _ Hpath Hfile Hjson) as Hmain.
  change (dumps (repr_float w) (Some 2%nat) _) with demo_output_ok in Hmain.
  split; [exact Hmain|]. split.
  - rewrite Hmain. cbn [trace fst In]. intros args input [H | [H | []]]; discriminate.
  - eexists. split; [vm_compute; reflexivity|]. split; reflexivity.
Qed.

Lemma demo_with_fixture_witness :
  read_file (world_with_file (lit "fixture.json") fixture_ok) (lit "fixture.json")
  = FileBytes fixture_ok
  /\ file_json fixture_ok = Return (VDict [(lit "status", VStr (lit "ok"))])
  /\ main (world_with_file (lit "fixture.json") fixture_ok) (Some (lit "fixture.json"))
     = ([OpenFile (lit "fixture.json"); Print demo_output_ok], Return 0).
Proof.
  split; [reflexivity|]. split; [reflexivity|].
  refine (proj1 (demo_with_fixture (world_with_file (lit "fixture.json") fixture_ok)
                   (lit "fixture.json") fixture_ok _ eq_refl eq_refl)).
  discriminate.
Defined.

(* ================================================================= *)
(** * Facts about [json.dumps] and [json.loads]: strings *)

Lemma hex_value_digit v : 0 <= v < 16 -> hex_value (hex_digit v) = Some v.
Proof.
  intros Hv. unfold hex_digit, hex_value.
  destruct (Z.ltb_spec v 10).
  - replace ((48 <=? 48 + v) && (48 + v <=? 57)) with true
      by (symmetry; apply andb_true_iff; split; apply Z.leb_le; lia).
    f_equal. lia.
  - replace ((48 <=? 87 + v) && (87 + v <=? 57)) with false
      by (symmetry; apply andb_false_iff; right; apply Z.leb_gt; lia).
    replace ((97 <=? 87 + v) && (87 + v <=? 102)) with true
      by (symmetry; apply andb_true_iff; split; apply Z.leb_le; lia).
    f_equal. lia.
Qed.

Lemma land15_range x : 0 <= Z.land x 15 < 16.
Proof.
  change 15 with (Z.ones 4). rewrite Z.land_ones by lia.
  apply Z.mod_pos_bound. reflexivity.
Qed.

Lemma u_escape_value c :
  0 <= c < 0x10000 ->
  ((Z.land (Z.shiftr c 12) 15 * 16 + Z.land (Z.shiftr c 8) 15) * 16
   + Z.land (Z.shiftr c 4) 15) * 16 + Z.land c 15 = c.
Proof.
  intros Hc. change 15 with (Z.ones 4). rewrite !Z.land_ones by lia.
  rewrite !Z.shiftr_div_pow2 by lia.
  change (2 ^ 12) with 4096. change (2 ^ 8) with 256. change (2 ^ 4) with 16.
  Z.div_mod_to_equations. lia.
Qed.

(** The four digits of a [\uXXXX] escape read back as the code unit. *)
Lemma hex4_u_escape c :
  0 <= c < 0x10000 ->
  hex4 (hex_digit (Z.land (Z.shiftr c 12) 15)) (hex_digit (Z.land (Z.shiftr c 8) 15))
       (hex_digit (Z.land (Z.shiftr c 4) 15)) (hex_digit (Z.land c 15)) = Some c.
Proof.
  intros Hc. unfold hex4. rewrite !hex_value_digit by apply land15_range.
  f_equal. now apply u_escape_value.
Qed.

Lemma lor_low a x k :
  0 <= k -> a mod 2 ^ k = 0 -> 0 <= x < 2 ^ k -> Z.lor a x = a + x.
Proof.
  intros Hk Ha Hx.
  assert (Hdisj : Z.land a x = 0).
  { replace x with (Z.land (Z.ones k) x)
      by (rewrite Z.land_comm, Z.land_ones, Z.mod_small; lia).
    rewrite Z.land_assoc, Z.land_ones, Ha by lia. apply Z.land_0_l. }
  rewrite <- Z.lxor_lor by exact Hdisj. symmetry. now apply Z.add_nocarry_lxor.
Qed.

Lemma land_1023 x : Z.land x 0x3FF = x mod 1024.
Proof. change 0x3FF with (Z.ones 10). now rewrite Z.land_ones by lia. Qed.

(** The two halves [py_encode_basestring_ascii] writes for a character
    above U+FFFF are a high and a low surrogate, and they join back. *)
Lemma surrogate_pair c :
  0x10000 <= c <= 0x10FFFF ->
  let hi := Z.lor 0xD800 (Z.land (Z.shiftr (c - 0x10000) 10) 0x3FF) in
  let lo := Z.lor 0xDC00 (Z.land (c - 0x10000) 0x3FF) in
  0xD800 <= hi <= 0xDBFF /\ 0xDC00 <= lo <= 0xDFFF /\ join_surrogates hi lo = c.
Proof.
  intros Hc hi lo. set (n := c - 0x10000) in *.
  assert (Hn : 0 <= n < 1024 * 1024) by (subst n; lia).
  assert (Hhi : hi = 0xD800 + n / 1024).
  { subst hi. rewrite land_1023, Z.shiftr_div_pow2 by lia.
    change (2 ^ 10) with 1024.
    rewrite (Z.mod_small (n / 1024)) by (Z.div_mod_to_equations; lia).
    apply (lor_low _ _ 10); [lia|reflexivity|].
    change (2 ^ 10) with 1024. Z.div_mod_to_equations; lia. }
  assert (Hlo : lo = 0xDC00 + n mod 1024).
  { subst lo. rewrite land_1023.
    apply (lor_low _ _ 10); [lia|reflexivity|].
    change (2 ^ 10) with 1024. Z.div_mod_to_equations; lia. }
  split; [rewrite Hhi; Z.div_mod_to_equations; lia|].
  split; [rewrite Hlo; Z.div_mod_to_equations; lia|].
  unfold join_surrogates. rewrite Hhi, Hlo.
  replace (0xD800 + n / 1024 - 0xD800) with (n / 1024) by lia.
  replace (0xDC00 + n mod 1024 - 0xDC00) with (n mod 1024) by lia.
  rewrite Z.shiftl_mul_pow2 by lia. change (2 ^ 10) with 1024.
  rewrite (lor_low _ _ 10); [|lia| |].
  - subst n. Z.div_mod_to_equations. lia.
  - change (2 ^ 10) with 1024. apply Z.mod_mul. lia.
  - change (2 ^ 10) with 1024. Z.div_mod_to_equations; lia.
Qed.

Section scanstring_escapes.

Variables (h1 h2 h3 h4 uni : Z).
Hypothesis digits : hex4 h1 h2 h3 h4 = Some uni.

Lemma scanstring_u_plain (s3 : str) :
  s3 <> [] -> is_high_surrogate uni = false ->
  scanstring (92 :: 117 :: h1 :: h2 :: h3 :: h4 :: s3)
  = scan_map (cons uni) (scanstring s3).
Proof.
  intros Hne Hhigh. destruct s3 as [|b1 t]; [congruence|].
  cbn [scanstring]. change (92 =? 34) with false. change (92 =? 92) with true.
  change (117 =? 117) with true. cbv iota. rewrite digits, Hhigh. reflexivity.
Qed.

Lemma scanstring_u_alone (b1 : Z) (t : str) :
  (b1 =? 92) = false ->
  scanstring (92 :: 117 :: h1 :: h2 :: h3 :: h4 :: b1 :: t)
  = scan_map (cons uni) (scanstring (b1 :: t)).
Proof.
  intros Hb1.
  cbn [scanstring]. change (92 =? 34) with false. change (92 =? 92) with true.
  change (117 =? 117) with true. cbv iota. rewrite digits.
  destruct (is_high_surrogate uni); [|reflexivity].
  destruct t as [|? [|? [|? [|? [|? [|? ?]]]]]]; try reflexivity.
  rewrite Hb1. reflexivity.
Qed.

Lemma scanstring_u_then_short (b2 : Z) (t : str) :
  (b2 =? 117) = false ->
  scanstring (92 :: 117 :: h1 :: h2 :: h3 :: h4 :: 92 :: b2 :: t)
  = scan_map (cons uni) (scanstring (92 :: b2 :: t)).
Proof.
  intros Hb2.
  cbn [scanstring]. change (92 =? 34) with false. change (92 =? 92) with true.
  change (117 =? 117) with true. cbv iota. rewrite digits.
  destruct (is_high_surrogate uni); [|reflexivity].
  destruct t as [|? [|? [|? [|? [|? ?]]]]]; try reflexivity.
  rewrite Hb2. rewrite andb_false_r. reflexivity.
Qed.

Lemma scanstring_u_then_u (g1 g2 g3 g4 uni2 : Z) (s5 : str) :
  hex4 g1 g2 g3 g4 = Some uni2 -> s5 <> [] ->
  scanstring (92 :: 117 :: h1 :: h2 :: h3 :: h4 :: 92 :: 117 :: g1 :: g2 :: g3 :: g4 :: s5)
  = if is_high_surrogate uni && is_low_surrogate uni2
    then scan_map (cons (join_surrogates uni uni2)) (scanstring s5)
    else scan_map (cons uni) (scanstring (92 :: 117 :: g1 :: g2 :: g3 :: g4 :: s5)).
Proof.
  intros Hdigits2 Hne. destruct s5 as [|b t]; [congruence|].
  cbn [scanstring]. change (92 =? 34) with false. change (92 =? 92) with true.
  change (117 =? 117) with true. cbv iota. rewrite digits.
  destruct (is_high_surrogate uni); [|reflexivity].
  cbn [andb]. rewrite Hdigits2.
  destruct (is_low_surrogate uni2); reflexivity.
Qed.

End scanstring_escapes.

Lemma escape_char_shape c : valid_codepoint c = true -> escape_shape c.
Proof.
  unfold valid_codepoint. intros Hc. apply andb_true_iff in Hc.
  destruct Hc as [H0 Hmax]. apply Z.leb_le in H0, Hmax.
  unfold escape_char.
  destruct (Z.eqb_spec c 92) as [->|?]; [now apply (EscShort _ 92)|].
  destruct (Z.eqb_spec c 34) as [->|?]; [now apply (EscShort _ 34)|].
  destruct (Z.eqb_spec c 8) as [->|?]; [now apply (EscShort _ 98)|].
  destruct (Z.eqb_spec c 12) as [->|?]; [now apply (EscShort _ 102)|].
  destruct (Z.eqb_spec c 10) as [->|?]; [now apply (EscShort _ 110)|].
  destruct (Z.eqb_spec c 13) as [->|?]; [now apply (EscShort _ 114)|].
  destruct (Z.eqb_spec c 9) as [->|?]; [now apply (EscShort _ 116)|].
  destruct ((32 <=? c) && (c <=? 126)) eqn:Hprint.
  { apply andb_true_iff in Hprint. destruct Hprint as [H32 H126].
    apply Z.leb_le in H32, H126.
    assert (Hesc : escape_char c = [c]).
    { unfold escape_char.
      repeat match goal with
             | |- context [c =? ?k] => destruct (Z.eqb_spec c k); [lia|]
             end.
      replace ((32 <=? c) && (c <=? 126)) with true; [reflexivity|].
      symmetry. apply andb_true_iff. split; apply Z.leb_le; lia. }
    apply EscLiteral.
    - exact Hesc.
    - apply Z.eqb_neq; lia.
    - apply Z.eqb_neq; lia.
    - apply Z.leb_gt; lia.
    - unfold is_surrogate. apply andb_false_iff. left. apply Z.leb_gt. lia. }
  destruct (Z.ltb_spec c 0x10000) as [Hlt|Hge].
  - apply EscUnit; [|lia].
    unfold escape_char.
    repeat match goal with
           | |- context [c =? ?k] => destruct (Z.eqb_spec c k); [lia|]
           end.
    rewrite Hprint. destruct (Z.ltb_spec c 0x10000); [reflexivity|lia].
  - destruct (surrogate_pair c ltac:(lia)) as (Hhi & Hlo & Hjoin).
    eapply EscPair.
    + unfold escape_char.
      repeat match goal with
             | |- context [c =? ?k] => destruct (Z.eqb_spec c k); [lia|]
             end.
      rewrite Hprint. destruct (Z.ltb_spec c 0x10000); [lia|reflexivity].
    + lia.
    + lia.
    + unfold is_high_surrogate. apply andb_true_iff. split; apply Z.leb_le; lia.
    + unfold is_low_surrogate. apply andb_true_iff. split; apply Z.leb_le; lia.
    + exact Hjoin.
    + unfold is_surrogate. apply andb_false_iff. right. apply Z.leb_gt. lia.
Qed.

Lemma merge_cons_plain c s :
  is_high_surrogate c = false -> merge_surrogates (c :: s) = c :: merge_surrogates s.
Proof. intros Hc. destruct s as [|d s]; [reflexivity|]. cbn. now rewrite Hc. Qed.

Lemma merge_cons_no_low c d s :
  is_low_surrogate d = false ->
  merge_surrogates (c :: d :: s) = c :: merge_surrogates (d :: s).
Proof.
  intros Hd. cbn [merge_surrogates]. rewrite Hd, andb_false_r. reflexivity.
Qed.

Lemma not_surrogate_not_high c : is_surrogate c = false -> is_high_surrogate c = false.
Proof.
  unfold is_surrogate, is_high_surrogate. intros H.
  apply andb_false_iff in H. apply andb_false_iff.
  destruct H as [H|H]; [left; exact H|right]. apply Z.leb_gt in H. apply Z.leb_gt. lia.
Qed.

Lemma not_surrogate_not_low c : is_surrogate c = false -> is_low_surrogate c = false.
Proof.
  unfold is_surrogate, is_low_surrogate. intros H.
  apply andb_false_iff in H. apply andb_false_iff.
  destruct H as [H|H]; [left|right; exact H]. apply Z.leb_gt in H. apply Z.leb_gt. lia.
Qed.

Lemma high_not_low c : is_high_surrogate c = true -> is_low_surrogate c = false.
Proof.
  unfold is_high_surrogate, is_low_surrogate. intros H.
  apply andb_true_iff in H. destruct H as [_ H]. apply Z.leb_le in H.
  apply andb_false_iff. left. apply Z.leb_gt. lia.
Qed.

Lemma scan_map_of_scanned {A B} (f : A -> B) (r : scan A) a rest :
  r = Scanned a rest -> scan_map f r = Scanned (f a) rest.
Proof. intros ->. reflexivity. Qed.

(** [scanstring] reads an escaped string back, up to the closing quote. *)
Lemma scanstring_escaped_bounded (n : nat) :
  forall s rest,
    (List.length s <= n)%nat -> valid_str s = true ->
    scanstring (escaped s ++ 34 :: rest) = Scanned (merge_surrogates s) rest.
Proof.
  induction n as [|n IH]; intros s rest Hlen Hvalid.
  - destruct s; [reflexivity|cbn in Hlen; lia].
  - destruct s as [|c s']; [reflexivity|].
    cbn [List.length] in Hlen. cbn [valid_str forallb] in Hvalid.
    apply andb_true_iff in Hvalid. destruct Hvalid as [Hc Hs'].
    assert (IHs' : scanstring (escaped s' ++ 34 :: rest)
                   = Scanned (merge_surrogates s') rest)
      by (apply IH; [lia|exact Hs']).
    unfold escaped in *. cbn [flat_map]. rewrite <- app_assoc.
    destruct (escape_char_shape c Hc)
      as [x Hesc Hback Hx Hsur | Hesc H34 H92 Hctl Hsur | Hesc Hrange
          | hi lo Hesc Hhi Hlo Hhigh Hlow Hjoin Hsur].
    + (* a two-character escape *)
      rewrite Hesc. cbn [app scanstring]. change (92 =? 34) with false.
      change (92 =? 92) with true. cbv iota. rewrite Hx, Hback.
      rewrite (merge_cons_plain c s' (not_surrogate_not_high c Hsur)).
      now apply scan_map_of_scanned.
    + (* the character itself *)
      rewrite Hesc. cbn [app scanstring]. rewrite H34, H92, Hctl.
      rewrite (merge_cons_plain c s' (not_surrogate_not_high c Hsur)).
      now apply scan_map_of_scanned.
    + (* one \uXXXX escape *)
      rewrite Hesc. unfold u_escape at 1. cbn [app].
      pose proof (hex4_u_escape c Hrange) as Hdigits.
      destruct (is_high_surrogate c) eqn:Hhigh.
      * destruct s' as [|c2 s''].
        { cbn [flat_map app].
          rewrite (scanstring_u_alone _ _ _ _ c Hdigits 34 rest eq_refl).
          reflexivity. }
        cbn [valid_str forallb] in Hs'. apply andb_true_iff in Hs'.
        destruct Hs' as [Hc2 Hs''].
        assert (IHs'' : scanstring (flat_map escape_char s'' ++ 34 :: rest)
                        = Scanned (merge_surrogates s'') rest)
          by (apply IH; [cbn [List.length] in Hlen; lia|exact Hs'']).
        revert IHs'. cbn [flat_map]. rewrite <- app_assoc.
        destruct (escape_char_shape c2 Hc2)
          as [x Hesc2 Hback2 Hx2 Hsur2 | Hesc2 H34' H92' Hctl' Hsur2 | Hesc2 Hrange2
              | hi2 lo2 Hesc2 Hhi2 Hlo2 Hhigh2 Hlow2 Hjoin2 Hsur2];
          rewrite Hesc2; intros IHs'.
        { cbn [app] in *.
          rewrite (scanstring_u_then_short _ _ _ _ c Hdigits x _ Hx2).
          rewrite (merge_cons_no_low c c2 s'' (not_surrogate_not_low c2 Hsur2)).
          now apply scan_map_of_scanned. }
        { cbn [app] in *.
          rewrite (scanstring_u_alone _ _ _ _ c Hdigits c2 _ H92').
          rewrite (merge_cons_no_low c c2 s'' (not_surrogate_not_low c2 Hsur2)).
          now apply scan_map_of_scanned. }
        { unfold u_escape in *. cbn [app] in *.
          rewrite (scanstring_u_then_u _ _ _ _ c Hdigits _ _ _ _ c2 _
                     (hex4_u_escape c2 Hrange2));
            [|destruct (flat_map escape_char s''); discriminate].
          rewrite Hhigh. cbn [andb merge_surrogates]. rewrite Hhigh. cbn [andb].
          destruct (is_low_surrogate c2); now apply scan_map_of_scanned. }
        { unfold u_escape in *. cbn [app] in *.
          rewrite (scanstring_u_then_u _ _ _ _ c Hdigits _ _ _ _ hi2 _
                     (hex4_u_escape hi2 Hhi2)); [|discriminate].
          rewrite (high_not_low hi2 Hhigh2), andb_false_r.
          rewrite (merge_cons_no_low c c2 s'' (not_surrogate_not_low c2 Hsur2)).
          now apply scan_map_of_scanned. }
      * rewrite (scanstring_u_plain _ _ _ _ c Hdigits);
          [|destruct (flat_map escape_char s'); discriminate|exact Hhigh].
        rewrite (merge_cons_plain c s' Hhigh).
        now apply scan_map_of_scanned.
    + (* a surrogate pair *)
      rewrite Hesc. unfold u_escape. cbn [app].
      rewrite (scanstring_u_then_u _ _ _ _ hi (hex4_u_escape hi Hhi) _ _ _ _ lo _
                 (hex4_u_escape lo Hlo));
        [|destruct (flat_map escape_char s'); discriminate].
      rewrite Hhigh, Hlow, Hjoin. cbn [andb].
      rewrite (merge_cons_plain c s' (not_surrogate_not_high c Hsur)).
      now apply scan_map_of_scanned.
Qed.

Lemma scanstring_escaped (s rest : str) :
  valid_str s = true ->
  scanstring (escaped s ++ 34 :: rest) = Scanned (merge_surrogates s) rest.
Proof. apply (scanstring_escaped_bounded (List.length s)). lia. Qed.
(* ================================================================= *)
(** * Facts about [json.dumps] and [json.loads]: integers *)

Lemma uint_chars_digits (d : Decimal.uint) : forallb is_digit (uint_chars d) = true.
Proof. induction d; cbn; auto. Qed.

Ltac digit_arith :=
  match goal with
  | |- context [Z.to_N ?e] =>
      let v := eval vm_compute in (Z.to_N e) in change (Z.to_N e) with v
  end; lia.

Lemma digits_value_acc (d : Decimal.uint) :
  forall acc : positive,
    fold_left (fun a c => a * 10 + Z.to_N (c - 48))%N (uint_chars d) (Npos acc)
    = Npos (Pos.of_uint_acc d acc).
Proof.
  induction d; intros acc; cbn [uint_chars fold_left Pos.of_uint_acc];
    try reflexivity;
    match goal with
    | |- fold_left _ _ ?a = _ =>
        match goal with
        | |- _ = Npos (Pos.of_uint_acc _ ?b) =>
            replace a with (Npos b) by digit_arith
        end
    end; apply IHd.
Qed.

Lemma digits_value_uint_chars (d : Decimal.uint) :
  digits_value (uint_chars d) = Pos.of_uint d.
Proof.
  unfold digits_value.
  induction d; cbn [uint_chars fold_left Pos.of_uint]; try reflexivity;
    try exact IHd;
    match goal with
    | |- fold_left _ _ ?a = Npos (Pos.of_uint_acc _ ?b) =>
        replace a with (Npos b) by digit_arith
    end; apply digits_value_acc.
Qed.

Lemma span_digits_app (ds rest : str) :
  forallb is_digit ds = true ->
  match rest with [] => true | c :: _ => negb (is_digit c) end = true ->
  span_digits (ds ++ rest) = (ds, rest).
Proof.
  intros Hds Hrest. induction ds as [|d ds IH].
  - destruct rest as [|c rest]; [reflexivity|]. cbn in *.
    destruct (is_digit c); [discriminate|reflexivity].
  - cbn in Hds. apply andb_true_iff in Hds. destruct Hds as [Hd Hds].
    cbn. rewrite Hd, (IH Hds). reflexivity.
Qed.

(** The decimal of a positive number starts with a digit from 1 to 9. *)
Lemma nzhead_shape (d : Decimal.uint) :
  match Decimal.nzhead d with Decimal.D0 _ => False | _ => True end.
Proof. induction d; cbn; auto. Qed.

Lemma pos_to_uint_head (p : positive) :
  exists c ds, uint_chars (Pos.to_uint p) = c :: ds
               /\ (c =? 48) = false /\ (49 <=? c) && (c <=? 57) = true.
Proof.
  pose proof (DecimalPos.Unsigned.to_of (Pos.to_uint p)) as Hnorm.
  rewrite DecimalPos.Unsigned.of_to in Hnorm. cbn [N.to_uint] in Hnorm.
  pose proof (DecimalPos.Unsigned.to_uint_nonzero p) as Hnz.
  pose proof (nzhead_shape (Pos.to_uint p)) as Hshape.
  unfold Decimal.unorm in Hnorm.
  destruct (Decimal.nzhead (Pos.to_uint p)) eqn:Hhead;
    try contradiction; rewrite Hnorm; try (now contradiction Hnz);
    cbn [uint_chars]; eexists _, _; repeat split; reflexivity.
Qed.

Lemma ends_number_no_digit rest :
  ends_number rest = true ->
  match rest with [] => true | c :: _ => negb (is_digit c) end = true.
Proof.
  destruct rest as [|c rest]; [reflexivity|]. cbn.
  intros H. repeat (apply andb_true_iff in H; destruct H as [H ?]). exact H.
Qed.

Lemma match_frac_none rest : ends_number rest = true -> match_frac rest = ([], rest).
Proof.
  destruct rest as [|c rest]; [reflexivity|]. cbn.
  intros H. repeat (apply andb_true_iff in H; destruct H as [H ?]).
  destruct (c =? 46); [discriminate|reflexivity].
Qed.

Lemma match_exp_none rest : ends_number rest = true -> match_exp rest = (None, rest).
Proof.
  destruct rest as [|c rest]; [reflexivity|]. cbn.
  intros H. repeat (apply andb_true_iff in H; destruct H as [H ?]).
  destruct (c =? 101); [discriminate|]. destruct (c =? 69); [discriminate|reflexivity].
Qed.

Lemma match_number_unsigned (p : positive) (rest : str) :
  ends_number rest = true ->
  exists c ds,
    uint_chars (Pos.to_uint p) = c :: ds
    /\ (c =? 45) = false
    /\ match_integer (c :: ds ++ rest) = Some (c :: ds, rest)
    /\ digits_value (c :: ds) = Npos p.
Proof.
  intros Hrest. destruct (pos_to_uint_head p) as (c & ds & Hchars & H48 & Hrange).
  exists c, ds. split; [exact Hchars|].
  pose proof (uint_chars_digits (Pos.to_uint p)) as Hdigits.
  rewrite Hchars in Hdigits. cbn [forallb] in Hdigits.
  apply andb_true_iff in Hdigits. destruct Hdigits as [_ Hds].
  split; [|split].
  - apply andb_true_iff in Hrange. destruct Hrange as [H49 _].
    apply Z.leb_le in H49. apply Z.eqb_neq. lia.
  - cbn [match_integer]. rewrite H48, Hrange.
    rewrite (span_digits_app ds rest Hds (ends_number_no_digit rest Hrest)).
    reflexivity.
  - rewrite <- Hchars, digits_value_uint_chars. apply DecimalPos.Unsigned.of_to.
Qed.

(** [NUMBER_RE] reads the decimal of an [int] back. *)
Lemma match_number_int_repr (z : Z) (rest : str) :
  ends_number rest = true ->
  match_number (int_repr z ++ rest) = Some (VInt z, rest).
Proof.
  intros Hrest. unfold int_repr.
  destruct z as [|p|p].
  - cbn. rewrite (match_frac_none rest Hrest), (match_exp_none rest Hrest). reflexivity.
  - change (Z.pos p <? 0) with false. cbn [app Z.abs_N N.to_uint].
    destruct (match_number_unsigned p rest Hrest) as (c & ds & Hchars & H45 & Hint & Hval).
    rewrite Hchars. cbn [app]. unfold match_number. rewrite H45, Hint.
    rewrite (match_frac_none rest Hrest), (match_exp_none rest Hrest), Hval.
    reflexivity.
  - change (Z.neg p <? 0) with true. cbn [app Z.abs_N N.to_uint].
    destruct (match_number_unsigned p rest Hrest) as (c & ds & Hchars & H45 & Hint & Hval).
    rewrite Hchars. cbn [app]. unfold match_number.
    change (45 =? 45) with true. cbv iota. rewrite Hint.
    rewrite (match_frac_none rest Hrest), (match_exp_none rest Hrest), Hval.
    reflexivity.
Qed.

(** The first character of the decimal of an [int]. *)
Lemma int_repr_head (z : Z) :
  exists c t, int_repr z = c :: t /\ ((c =? 45) || is_digit c) = true.
Proof.
  unfold int_repr. destruct z as [|p|p].
  - now exists 48, [].
  - change (Z.pos p <? 0) with false. cbn [app Z.abs_N N.to_uint].
    destruct (pos_to_uint_head p) as (c & ds & Hchars & H48 & Hrange).
    exists c, ds. split; [exact Hchars|].
    apply andb_true_iff in Hrange. destruct Hrange as [H49 H57].
    apply Z.leb_le in H49, H57. apply orb_true_iff. right.
    unfold is_digit. apply andb_true_iff. split; apply Z.leb_le; lia.
  - change (Z.neg p <? 0) with true. cbn [app]. now eexists 45, _.
Qed.

(* ================================================================= *)
(** * Facts about [json.dumps] and [json.loads]: floats *)

Lemma is_ascii_intro c : 0 <= c < 128 -> is_ascii c = true.
Proof. intros H. unfold is_ascii. apply andb_true_iff. split; [apply Z.leb_le|apply Z.ltb_lt]; lia. Qed.

Lemma is_ascii_elim c : is_ascii c = true -> 0 <= c < 128.
Proof.
  unfold is_ascii. intros H. apply andb_true_iff in H. destruct H as [H0 H1].
  apply Z.leb_le in H0. apply Z.ltb_lt in H1. lia.
Qed.

Lemma forallb_app_true {A} (f : A -> bool) (l1 l2 : list A) :
  forallb f l1 = true -> forallb f l2 = true -> forallb f (l1 ++ l2) = true.
Proof. intros H1 H2. rewrite forallb_app, H1, H2. reflexivity. Qed.

Lemma digit_ascii c : is_digit c = true -> is_ascii c = true.
Proof.
  unfold is_digit. intros H. apply andb_true_iff in H. destruct H as [H0 H1].
  apply Z.leb_le in H0, H1. apply is_ascii_intro. lia.
Qed.

Lemma digits_ascii (ds : str) : forallb is_digit ds = true -> forallb is_ascii ds = true.
Proof.
  intros H. rewrite forallb_forall in *. intros c Hc. apply digit_ascii, H, Hc.
Qed.

(** [span_digits] splits a text into its leading digits and the rest. *)
Lemma span_digits_split (s : str) :
  forall ds r, span_digits s = (ds, r) ->
    s = ds ++ r /\ forallb is_digit ds = true
    /\ match r with [] => true | c :: _ => negb (is_digit c) end = true.
Proof.
  induction s as [|c s IH]; intros ds r; cbn [span_digits].
  - intros E. injection E as <- <-. now repeat split.
  - destruct (is_digit c) eqn:Hc.
    + destruct (span_digits s) as [ds' r'] eqn:Hs. intros E. injection E as <- <-.
      destruct (IH ds' r' eq_refl) as (-> & Hds & Hr).
      cbn [forallb app]. rewrite Hc, Hds. now repeat split.
    + intros E. injection E as <- <-. cbn. rewrite Hc. now repeat split.
Qed.

Lemma span_digits_more (s rest ds r : str) :
  span_digits s = (ds, r) ->
  (r = [] -> match rest with [] => true | c :: _ => negb (is_digit c) end = true) ->
  span_digits (s ++ rest) = (ds, r ++ rest).
Proof.
  intros Hs Hrest. destruct (span_digits_split s ds r Hs) as (-> & Hds & Hr).
  rewrite <- app_assoc. apply span_digits_app; [exact Hds|].
  destruct r as [|c r]; [now apply Hrest|exact Hr].
Qed.

Lemma match_integer_split (s ids r : str) :
  match_integer s = Some (ids, r) ->
  s = ids ++ r /\ forallb is_digit ids = true
  /\ exists c t, ids = c :: t.
Proof.
  destruct s as [|c s]; cbn [match_integer]; [discriminate|].
  destruct (Z.eqb_spec c 48) as [->|_].
  - intros E. injection E as <- <-. repeat split. now eexists _, _.
  - destruct ((49 <=? c) && (c <=? 57)) eqn:Hc; [|discriminate].
    destruct (span_digits s) as [ds r'] eqn:Hs. intros E. injection E as <- <-.
    destruct (span_digits_split s ds r' Hs) as (-> & Hds & _).
    cbn [forallb app]. rewrite Hds. split; [reflexivity|]. split; [|now eexists _, _].
    apply andb_true_iff in Hc. destruct Hc as [H49 H57]. apply Z.leb_le in H49, H57.
    rewrite andb_true_r. unfold is_digit. apply andb_true_iff.
    split; apply Z.leb_le; lia.
Qed.

Lemma match_integer_more (s rest ids r : str) :
  match_integer s = Some (ids, r) ->
  (r = [] -> match rest with [] => true | c :: _ => negb (is_digit c) end = true) ->
  match_integer (s ++ rest) = Some (ids, r ++ rest).
Proof.
  destruct s as [|c s]; cbn [match_integer app]; [discriminate|].
  destruct (c =? 48).
  - intros E _. injection E as <- <-. reflexivity.
  - destruct ((49 <=? c) && (c <=? 57)); [|discriminate].
    destruct (span_digits s) as [ds r'] eqn:Hs. intros E Hrest. injection E as <- <-.
    now rewrite (span_digits_more s rest ds r' Hs Hrest).
Qed.

Lemma match_frac_split (s fds r : str) :
  match_frac s = (fds, r) -> exists u, s = u ++ r /\ forallb is_ascii u = true.
Proof.
  destruct s as [|c s]; cbn [match_frac].
  - intros E. injection E as <- <-. now exists [].
  - destruct (Z.eqb_spec c 46) as [->|_].
    + destruct (span_digits s) as [ds r'] eqn:Hs.
      destruct (span_digits_split s ds r' Hs) as (-> & Hds & _).
      destruct ds as [|d ds]; intros E; injection E as <- <-.
      * now exists [].
      * exists (46 :: d :: ds). split; [reflexivity|].
        change (forallb is_ascii (46 :: d :: ds)) with (forallb is_ascii (d :: ds)).
        now apply digits_ascii.
    + intros E. injection E as <- <-. now exists [].
Qed.

Lemma match_frac_more (s rest fds r : str) :
  match_frac s = (fds, r) ->
  ends_number rest = true ->
  match_frac (s ++ rest) = (fds, r ++ rest).
Proof.
  intros Hs Hrest. destruct s as [|c s].
  - cbn in Hs. injection Hs as <- <-. apply (match_frac_none rest Hrest).
  - cbn [match_frac app] in *. destruct (c =? 46).
    + destruct (span_digits s) as [ds r'] eqn:Hspan.
      rewrite (span_digits_more s rest ds r' Hspan
                 (fun _ => ends_number_no_digit rest Hrest)).
      destruct ds as [|d ds]; injection Hs as <- <-; reflexivity.
    + injection Hs as <- <-. reflexivity.
Qed.

Lemma match_exp_split (s : str) (ex : option Z) (r : str) :
  match_exp s = (ex, r) -> exists u, s = u ++ r /\ forallb is_ascii u = true.
Proof.
  destruct s as [|c s1]; cbn [match_exp].
  - intros E. injection E as <- <-. now exists [].
  - destruct ((c =? 101) || (c =? 69)) eqn:Hc;
      [|intros E; injection E as <- <-; now exists []].
    assert (Hca : is_ascii c = true).
    { apply orb_true_iff in Hc. destruct Hc as [Hc|Hc]; apply Z.eqb_eq in Hc;
        subst c; reflexivity. }
    destruct s1 as [|d s2].
    + cbn. intros E. injection E as <- <-. now exists [].
    + destruct (Z.eqb_spec d 45) as [->|_]; [|destruct (Z.eqb_spec d 43) as [->|_]].
      * destruct (span_digits s2) as [ds r'] eqn:Hs.
        destruct (span_digits_split s2 ds r' Hs) as (-> & Hds & _).
        destruct ds as [|x ds]; intros E; injection E as <- <-; [now exists []|].
        exists (c :: 45 :: x :: ds). split; [reflexivity|].
        cbn [forallb]. rewrite Hca. change (is_ascii 45) with true.
        cbn [andb]. now apply (digits_ascii (x :: ds)).
      * destruct (span_digits s2) as [ds r'] eqn:Hs.
        destruct (span_digits_split s2 ds r' Hs) as (-> & Hds & _).
        destruct ds as [|x ds]; intros E; injection E as <- <-; [now exists []|].
        exists (c :: 43 :: x :: ds). split; [reflexivity|].
        cbn [forallb]. rewrite Hca. change (is_ascii 43) with true.
        cbn [andb]. now apply (digits_ascii (x :: ds)).
      * destruct (span_digits (d :: s2)) as [ds r'] eqn:Hs.
        destruct (span_digits_split (d :: s2) ds r' Hs) as (Heq & Hds & _).
        destruct ds as [|x ds]; intros E; injection E as <- <-; [now exists []|].
        exists (c :: x :: ds). split; [cbn [app]; now rewrite Heq|].
        cbn [forallb]. rewrite Hca. cbn [andb]. now apply (digits_ascii (x :: ds)).
Qed.

Lemma match_exp_more (s rest : str) (ex : option Z) :
  match_exp s = (ex, []) ->
  ends_number rest = true ->
  match_exp (s ++ rest) = (ex, rest).
Proof.
  intros Hs Hrest. pose proof (ends_number_no_digit rest Hrest) as Hdigit.
  destruct s as [|c s1].
  - cbn in Hs. injection Hs as <-. apply (match_exp_none rest Hrest).
  - cbn [match_exp app] in *.
    destruct ((c =? 101) || (c =? 69)); [|discriminate].
    destruct s1 as [|d s2]; [cbn in Hs; discriminate|].
    cbn [app]. destruct (d =? 45); [|destruct (d =? 43)].
    + destruct (span_digits s2) as [ds r'] eqn:Hspan.
      destruct ds as [|x ds]; [discriminate|]. injection Hs as <- ->.
      now rewrite (span_digits_more s2 rest _ [] Hspan (fun _ => Hdigit)).
    + destruct (span_digits s2) as [ds r'] eqn:Hspan.
      destruct ds as [|x ds]; [discriminate|]. injection Hs as <- ->.
      now rewrite (span_digits_more s2 rest _ [] Hspan (fun _ => Hdigit)).
    + destruct (span_digits (d :: s2)) as [ds r'] eqn:Hspan.
      destruct ds as [|x ds]; [discriminate|]. injection Hs as <- ->.
      change (d :: s2 ++ rest) with ((d :: s2) ++ rest).
      now rewrite (span_digits_more (d :: s2) rest _ [] Hspan (fun _ => Hdigit)).
Qed.

(** A number that [NUMBER_RE] reads to the end of a text is read the same
    in front of whatever can follow a number. *)
Lemma match_number_more (t rest : str) (v : value) :
  match_number t = Some (v, []) ->
  ends_number rest = true ->
  match_number (t ++ rest) = Some (v, rest).
Proof.
  intros Ht Hrest. pose proof (ends_number_no_digit rest Hrest) as Hdigit.
  unfold match_number in *.
  destruct t as [|c t']; [cbn in Ht; discriminate|]. cbn [app].
  destruct (c =? 45).
  - destruct (match_integer t') as [[ids s2]|] eqn:Hint; [|discriminate].
    rewrite (match_integer_more t' rest ids s2 Hint (fun _ => Hdigit)).
    destruct (match_frac s2) as [fds s3] eqn:Hfrac.
    rewrite (match_frac_more s2 rest fds s3 Hfrac Hrest).
    destruct (match_exp s3) as [ex s4] eqn:Hexp.
    assert (s4 = []) by (destruct fds, ex; congruence). subst s4.
    rewrite (match_exp_more s3 rest ex Hexp Hrest).
    destruct fds, ex; congruence.
  - destruct (match_integer (c :: t')) as [[ids s2]|] eqn:Hint; [|discriminate].
    change (c :: t' ++ rest) with ((c :: t') ++ rest).
    rewrite (match_integer_more (c :: t') rest ids s2 Hint (fun _ => Hdigit)).
    destruct (match_frac s2) as [fds s3] eqn:Hfrac.
    rewrite (match_frac_more s2 rest fds s3 Hfrac Hrest).
    destruct (match_exp s3) as [ex s4] eqn:Hexp.
    assert (s4 = []) by (destruct fds, ex; congruence). subst s4.
    rewrite (match_exp_more s3 rest ex Hexp Hrest).
    destruct fds, ex; congruence.
Qed.

Lemma number_text (s1 ids s2 fds s3 : str) (ex : option Z) :
  match_integer s1 = Some (ids, s2) ->
  match_frac s2 = (fds, s3) ->
  match_exp s3 = (ex, []) ->
  forallb is_ascii s1 = true
  /\ exists d s', s1 = d :: s' /\ is_digit d = true.
Proof.
  intros Hint Hfrac Hexp.
  destruct (match_integer_split s1 ids s2 Hint) as (-> & Hids & (d & ids' & ->)).
  destruct (match_frac_split s2 fds s3 Hfrac) as (u & -> & Hu).
  destruct (match_exp_split s3 ex [] Hexp) as (u' & -> & Hu').
  split.
  - rewrite app_nil_r. repeat apply forallb_app_true; try assumption.
    now apply digits_ascii.
  - exists d, (ids' ++ u ++ u' ++ []). split; [reflexivity|].
    cbn [forallb] in Hids. apply andb_true_iff in Hids. tauto.
Qed.

(** A text that [NUMBER_RE] reads to its end starts with a digit or a
    minus sign and is made of ASCII characters. *)
Lemma match_number_text (t : str) (v : value) :
  match_number t = Some (v, []) ->
  forallb is_ascii t = true
  /\ exists c t', t = c :: t' /\ ((c =? 45) || is_digit c) = true.
Proof.
  intros Ht. unfold match_number in Ht.
  destruct t as [|c t']; [cbn in Ht; discriminate|].
  destruct (c =? 45) eqn:Hc.
  - destruct (match_integer t') as [[ids s2]|] eqn:Hint; [|discriminate].
    destruct (match_frac s2) as [fds s3] eqn:Hfrac.
    destruct (match_exp s3) as [ex s4] eqn:Hexp.
    assert (s4 = []) by (destruct fds, ex; congruence). subst s4.
    destruct (number_text t' ids s2 fds s3 ex Hint Hfrac Hexp) as (Hascii & _).
    apply Z.eqb_eq in Hc. subst c. split.
    + cbn [forallb]. now rewrite Hascii.
    + now exists 45, t'.
  - destruct (match_integer (c :: t')) as [[ids s2]|] eqn:Hint; [|discriminate].
    destruct (match_frac s2) as [fds s3] eqn:Hfrac.
    destruct (match_exp s3) as [ex s4] eqn:Hexp.
    assert (s4 = []) by (destruct fds, ex; congruence). subst s4.
    destruct (number_text (c :: t') ids s2 fds s3 ex Hint Hfrac Hexp)
      as (Hascii & (d & s' & Heq & Hd)).
    split; [exact Hascii|]. exists c, t'. split; [reflexivity|].
    injection Heq as <- _. rewrite Hd. apply orb_true_r.
Qed.

Lemma pyfloat_eqb_eq (a b : pyfloat) : pyfloat_eqb a b = true -> a = b.
Proof.
  destruct a as [|x|s d e], b as [|y|s' d' e']; cbn; try discriminate; intros H.
  - reflexivity.
  - apply Bool.eqb_prop in H. now subst.
  - apply andb_true_iff in H. destruct H as [H He].
    apply andb_true_iff in H. destruct H as [Hs Hd].
    apply Bool.eqb_prop in Hs. apply N.eqb_eq in Hd. apply Z.eqb_eq in He.
    now subst.
Qed.

(** What [float_reads_back] says of a finite float. *)
Lemma float_text_reads_back (float_repr : pyfloat -> str) (s : bool) (d : N) (e : Z) :
  float_reads_back float_repr (FDec s d e) = true ->
  match_number (float_repr (FDec s d e)) = Some (VFloat (FDec s d e), []).
Proof.
  unfold float_reads_back.
  destruct (match_number (float_repr (FDec s d e))) as [[v r]|]; [|discriminate].
  destruct v; try discriminate. destruct r; [|discriminate].
  intros H. apply pyfloat_eqb_eq in H. now subst.
Qed.

(** [scan_once] on a text that starts with a number. *)
Lemma scan_once_number (fuel : nat) (c : Z) (t rest : str) (v : value) :
  ((c =? 45) || is_digit c) = true ->
  match_number (c :: t) = Some (v, rest) ->
  scan_once (S fuel) (c :: t) = Scanned v rest.
Proof.
  intros Hc Hnum. cbn [scan_once].
  assert (Hc' : (c =? 34) = false /\ (c =? 123) = false /\ (c =? 91) = false
                /\ (c =? 110) = false /\ (c =? 116) = false /\ (c =? 102) = false).
  { apply orb_true_iff in Hc. destruct Hc as [Hc|Hc].
    - apply Z.eqb_eq in Hc. subst c. repeat split; reflexivity.
    - unfold is_digit in Hc. apply andb_true_iff in Hc. destruct Hc as [H48 H57].
      apply Z.leb_le in H48, H57. repeat split; apply Z.eqb_neq; lia. }
  destruct Hc' as (H34 & H123 & H91 & H110 & H116 & H102).
  rewrite H34, H123, H91. unfold scan_constant.
  cbn [after_prefix lit List.map list_ascii_of_string].
  change (ord "n") with 110. change (ord "t") with 116. change (ord "f") with 102.
  rewrite (Z.eqb_sym 110 c), (Z.eqb_sym 116 c), (Z.eqb_sym 102 c), H110, H116, H102.
  rewrite Hnum. reflexivity.
Qed.

(** [scan_once] reads the text of a float that reads back. *)
Lemma scan_once_float (float_repr : pyfloat -> str) (f : pyfloat)
      (rest : str) (fuel : nat) :
  float_reads_back float_repr f = true ->
  ends_number rest = true ->
  scan_once (S fuel) (floatstr float_repr f ++ rest) = Scanned (VFloat f) rest.
Proof.
  intros Hf Hrest. destruct f as [|[|]|s d e]; [discriminate|reflexivity|reflexivity|].
  cbn [floatstr]. pose proof (float_text_reads_back float_repr s d e Hf) as Hnum.
  destruct (match_number_text _ _ Hnum) as (_ & (c & t & Htext & Hc)).
  pose proof (match_number_more _ rest _ Hnum Hrest) as Hmore.
  rewrite Htext in *. cbn [app] in *. now apply scan_once_number.
Qed.

(** The text of a float that reads back: ASCII characters, the first of
    which is neither white space nor a closing bracket. *)
Lemma floatstr_text (float_repr : pyfloat -> str) (f : pyfloat) :
  float_reads_back float_repr f = true ->
  forallb is_ascii (floatstr float_repr f) = true
  /\ exists c t, floatstr float_repr f = c :: t
                 /\ is_ws c = false /\ (c =? 93) = false.
Proof.
  intros Hf. destruct f as [|[|]|s d e]; [discriminate| | |].
  - split; [reflexivity|]. now eexists _, _.
  - split; [reflexivity|]. now eexists _, _.
  - cbn [floatstr]. pose proof (float_text_reads_back float_repr s d e Hf) as Hnum.
    destruct (match_number_text _ _ Hnum) as (Hascii & (c & t & Htext & Hc)).
    split; [exact Hascii|]. exists c, t. split; [exact Htext|].
    apply orb_true_iff in Hc. destruct Hc as [Hc|Hc].
    + apply Z.eqb_eq in Hc. subst c. split; reflexivity.
    + unfold is_digit in Hc. apply andb_true_iff in Hc. destruct Hc as [H48 H57].
      apply Z.leb_le in H48, H57. unfold is_ws.
      repeat match goal with
             | |- context [c =? ?k] => destruct (Z.eqb_spec c k); [lia|]
             end.
      split; reflexivity.
Qed.

(* ================================================================= *)
(** * Facts about [json.dumps] and [json.loads]: objects *)

(** Induction on objects, through the lists and dicts they hold. *)
Section value_induction.

Variable P : value -> Prop.
Hypothesis HNone : P VNone.
Hypothesis HBool : forall b, P (VBool b).
Hypothesis HInt : forall n, P (VInt n).
Hypothesis HFloat : forall f, P (VFloat f).
Hypothesis HStr : forall s, P (VStr s).
Hypothesis HList : forall l, Forall P l -> P (VList l).
Hypothesis HDict : forall d, Forall (fun kv => P (snd kv)) d -> P (VDict d).

Lemma value_nested_ind (v : value) : P v.
Proof.
  revert v. fix IH 1. intros [|b|n|f|s|l|d].
  - exact HNone.
  - apply HBool.
  - apply HInt.
  - apply HFloat.
  - apply HStr.
  - apply HList. induction l as [|x l IHl]; constructor; [apply IH|exact IHl].
  - apply HDict. induction d as [|kv d IHd]; constructor; [apply IH|exact IHd].
Qed.

End value_induction.

Section decoding.

Variable float_repr : pyfloat -> str.

Local Notation "'enc'" := (iterencode float_repr None).

(** An encoded object starts with a character that is neither white space
    nor a closing bracket. *)
Lemma enc_head (level : nat) (v : value) :
  encodable float_repr v = true ->
  exists c t, enc level v = c :: t /\ is_ws c = false /\ (c =? 93) = false.
Proof.
  destruct v as [|[|]|n|f|s|[|x l]|[|kv d]]; cbn [encodable]; intros Hv;
    try (cbn; eexists _, _; repeat split; reflexivity);
    [|exact (proj2 (floatstr_text float_repr f Hv))].
  cbn [iterencode]. destruct (int_repr_head n) as (c & t & Hrepr & Hc).
  exists c, t. split; [exact Hrepr|].
  apply orb_true_iff in Hc. destruct Hc as [Hc|Hc].
  - apply Z.eqb_eq in Hc. subst c. split; reflexivity.
  - unfold is_digit in Hc. apply andb_true_iff in Hc. destruct Hc as [H48 H57].
    apply Z.leb_le in H48, H57. unfold is_ws.
    repeat match goal with
           | |- context [c =? ?k] => destruct (Z.eqb_spec c k); [lia|]
           end.
    split; reflexivity.
Qed.

Lemma skip_ws_enc (level : nat) (v : value) (rest : str) :
  encodable float_repr v = true -> skip_ws (enc level v ++ rest) = enc level v ++ rest.
Proof.
  intros Hv. destruct (enc_head level v Hv) as (c & t & -> & Hws & _).
  cbn. now rewrite Hws.
Qed.

Lemma join_one (sep p : str) : join sep [p] = p.
Proof. reflexivity. Qed.

Lemma join_more (sep p q : str) (ps : list str) :
  join sep (p :: q :: ps) = p ++ sep ++ join sep (q :: ps).
Proof. reflexivity. Qed.

(** The loop of [JSONArray] on the items of an encoded list. *)
Lemma array_items_encoded (level fuel : nat) (rest : str) :
  forall (l : list value) (x : value) (k : nat),
    Forall (reads_back float_repr) (x :: l) ->
    forallb (encodable float_repr) (x :: l) = true ->
    Nat.lt (List.length (join [44; 32] (List.map (enc level) (x :: l)) ++ 93 :: rest)) k ->
    (k <= fuel)%nat ->
    array_items (scan_once fuel) k
                (join [44; 32] (List.map (enc level) (x :: l)) ++ 93 :: rest)
    = Scanned (List.map decoded (x :: l)) rest.
Proof.
  induction l as [|y l IH]; intros x k Hall Henc Hlen Hk.
  - inversion Hall as [|? ? Hx _]; subst.
    cbn [forallb] in Henc. apply andb_true_iff in Henc. destruct Henc as [Hex _].
    cbn [List.map] in *. rewrite join_one in *.
    destruct k as [|k]; [lia|]. cbn [array_items].
    rewrite (Hx Hex level (93 :: rest) fuel eq_refl) by (unfold Nat.lt in *; lia).
    reflexivity.
  - inversion Hall as [|? ? Hx Hrest]; subst.
    cbn [forallb] in Henc. apply andb_true_iff in Henc. destruct Henc as [Hex Henc].
    cbn [List.map] in *. rewrite join_more in *.
    rewrite <- !app_assoc in *. cbn [app] in *.
    destruct k as [|k]; [lia|]. cbn [array_items].
    match goal with
    | |- context [scan_once fuel (enc level x ++ ?r)] =>
        rewrite (Hx Hex level r fuel eq_refl) by (unfold Nat.lt in *; lia)
    end.
    cbn [skip_ws]. change (is_ws 44) with false. cbv iota. change (44 =? 93) with false.
    change (44 =? 44) with true. cbv iota.
    assert (Hy : encodable float_repr y = true)
      by (cbn [forallb] in Henc; apply andb_true_iff in Henc; tauto).
    assert (Hskip : skip_ws (32 :: join [44; 32] (enc level y :: List.map (enc level) l)
                               ++ 93 :: rest)
                    = join [44; 32] (enc level y :: List.map (enc level) l) ++ 93 :: rest).
    { cbn [skip_ws]. change (is_ws 32) with true. cbv iota.
      destruct l as [|z l]; cbn [List.map].
      - rewrite join_one. apply skip_ws_enc, Hy.
      - rewrite join_more, <- app_assoc. apply skip_ws_enc, Hy. }
    rewrite Hskip.
    rewrite (IH y k Hrest Henc).
    + reflexivity.
    + unfold Nat.lt in *. rewrite !length_app in *. cbn [List.length] in *.
      rewrite !length_app in *. cbn [List.length] in *. lia.
    + lia.
Qed.

Lemma join_items (level : nat) (rest : str) :
  forall (d : list (str * value)) (kv : str * value),
    join [44; 32]
         (List.map (fun kv => py_encode_basestring_ascii (fst kv)
                              ++ key_separator ++ enc level (snd kv)) (kv :: d))
    ++ 125 :: rest
    = 34 :: items_text float_repr level kv d rest.
Proof.
  induction d as [|kv' d IH]; intros kv.
  - cbn [List.map items_text]. rewrite join_one.
    unfold py_encode_basestring_ascii, key_separator, escaped.
    cbn [app]. rewrite <- !app_assoc. reflexivity.
  - cbn [List.map items_text] in *. rewrite join_more.
    rewrite <- !app_assoc. unfold str in *. rewrite (IH kv').
    unfold py_encode_basestring_ascii, key_separator, escaped.
    cbn [app]. rewrite <- !app_assoc. reflexivity.
Qed.

Lemma skip_ws_space (s : str) : skip_ws (32 :: s) = skip_ws s.
Proof. reflexivity. Qed.

Lemma skip_ws_stop (c : Z) (s : str) : is_ws c = false -> skip_ws (c :: s) = c :: s.
Proof. intros H. cbn. now rewrite H. Qed.

(** The loop of [JSONObject] on the items of an encoded dict. *)
Lemma object_items_encoded (level fuel : nat) (rest : str) :
  forall (d : list (str * value)) (kv : str * value) (k : nat),
    Forall (fun kv => reads_back float_repr (snd kv)) (kv :: d) ->
    forallb (fun kv => valid_str (fst kv) && encodable float_repr (snd kv)) (kv :: d) = true ->
    Nat.lt (List.length (items_text float_repr level kv d rest)) k ->
    (k <= fuel)%nat ->
    object_items (scan_once fuel) k (items_text float_repr level kv d rest)
    = Scanned (List.map (fun kv => (merge_surrogates (fst kv), decoded (snd kv)))
                        (kv :: d)) rest.
Proof.
  induction d as [|kv' d IH]; intros [key v] k Hall Henc Hlen Hk;
    inversion Hall as [|? ? Hv Hrest]; subst;
    cbn [forallb fst snd] in Henc; apply andb_true_iff in Henc;
    destruct Henc as [Hkv Henc]; apply andb_true_iff in Hkv;
    destruct Hkv as [Hkey Hev]; cbn [snd] in Hv;
    cbn [items_text fst snd List.map] in *;
    (destruct k as [|k]; [unfold Nat.lt in *; lia|]); cbn [object_items];
    rewrite (scanstring_escaped key _ Hkey);
    rewrite (skip_ws_stop 58) by reflexivity;
    change (58 =? 58) with true; cbv iota;
    rewrite skip_ws_space, (skip_ws_enc level v _ Hev);
    match goal with
    | |- context [scan_once fuel (enc level v ++ ?r)] =>
        rewrite (Hv Hev level r fuel eq_refl)
          by (unfold Nat.lt in *; rewrite !length_app in *;
              cbn [List.length] in *; rewrite !length_app in *;
              cbn [List.length] in *; lia)
    end.
  - rewrite (skip_ws_stop 125) by reflexivity. reflexivity.
  - rewrite (skip_ws_stop 44) by reflexivity.
    change (44 =? 125) with false. change (44 =? 44) with true. cbv iota.
    rewrite skip_ws_space, (skip_ws_stop 34) by reflexivity.
    change (34 =? 34) with true. cbv iota.
    rewrite (IH kv' k Hrest Henc).
    + reflexivity.
    + unfold Nat.lt in *. rewrite !length_app in *. cbn [List.length] in *.
      rewrite !length_app in *. cbn [List.length] in *. lia.
    + lia.
Qed.

Lemma encoded_items_head (level : nat) (x : value) (l : list value) (tl : str) :
  encodable float_repr x = true ->
  exists c t,
    join [44; 32] (List.map (enc level) (x :: l)) ++ tl = c :: t
    /\ is_ws c = false /\ (c =? 93) = false.
Proof.
  intros Hx. destruct (enc_head level x Hx) as (c & t & Hhead & Hws & H93).
  destruct l as [|y l]; cbn [List.map].
  - rewrite join_one, Hhead. now eexists _, _.
  - rewrite join_more, Hhead. cbn [app]. now eexists _, _.
Qed.

(** [scan_once] reads the text of an encodable object back. *)
Theorem scan_once_reads_back (v : value) : reads_back float_repr v.
Proof.
  induction v as [|b|n|f|s|l IH|d IH] using value_nested_ind;
    intros Hv level rest fuel Hrest Hlen;
    (destruct fuel as [|fuel]; [unfold Nat.lt in *; lia|]).
  - reflexivity.
  - destruct b; reflexivity.
  - cbn [iterencode decoded] in *.
    destruct (int_repr_head n) as (c & t & Hrepr & Hc).
    pose proof (match_number_int_repr n rest Hrest) as Hnum.
    rewrite Hrepr in *. cbn [app scan_once] in *.
    assert (Hc' : (c =? 34) = false /\ (c =? 123) = false /\ (c =? 91) = false
                  /\ (c =? 110) = false /\ (c =? 116) = false /\ (c =? 102) = false).
    { apply orb_true_iff in Hc. destruct Hc as [Hc|Hc].
      - apply Z.eqb_eq in Hc. subst c. repeat split; reflexivity.
      - unfold is_digit in Hc. apply andb_true_iff in Hc. destruct Hc as [H48 H57].
        apply Z.leb_le in H48, H57. repeat split; apply Z.eqb_neq; lia. }
    destruct Hc' as (H34 & H123 & H91 & H110 & H116 & H102).
    rewrite H34, H123, H91. unfold scan_constant.
    cbn [after_prefix lit List.map list_ascii_of_string].
    change (ord "n") with 110. change (ord "t") with 116. change (ord "f") with 102.
    rewrite (Z.eqb_sym 110 c), (Z.eqb_sym 116 c), (Z.eqb_sym 102 c), H110, H116, H102.
    rewrite Hnum. reflexivity.
  - exact (scan_once_float float_repr f rest fuel Hv Hrest).
  - cbn [iterencode decoded encodable] in *. unfold py_encode_basestring_ascii.
    cbn [app scan_once]. change (34 =? 34) with true. cbv iota.
    rewrite <- app_assoc. cbn [app].
    fold (escaped s). rewrite (scanstring_escaped s rest Hv). reflexivity.
  - destruct l as [|x l]; [reflexivity|].
    cbn [encodable] in Hv. cbn [iterencode decoded] in *.
    cbn [newline_indent item_separator app] in *.
    rewrite <- app_assoc in *. cbn [app List.length] in *.
    cbn [scan_once]. change (91 =? 34) with false. change (91 =? 123) with false.
    change (91 =? 91) with true. cbv iota.
    unfold JSONArray.
    assert (Hx : encodable float_repr x = true)
      by (cbn [forallb] in Hv; apply andb_true_iff in Hv; tauto).
    destruct (encoded_items_head (S level) x l (93 :: rest) Hx)
      as (c & t & Hhead & Hws & H93).
    rewrite Hhead, (skip_ws_stop c t Hws), H93, <- Hhead.
    rewrite (array_items_encoded (S level) fuel rest l x fuel IH Hv);
      [reflexivity|unfold Nat.lt in *; lia|lia].
  - destruct d as [|kv d]; [reflexivity|].
    cbn [encodable] in Hv. cbn [iterencode decoded] in *.
    cbn [newline_indent item_separator app] in *.
    rewrite <- app_assoc in *. cbn [app List.length] in *.
    unfold str in *. rewrite join_items in *.
    cbn [scan_once]. change (123 =? 34) with false. change (123 =? 123) with true.
    cbv iota. unfold JSONObject.
    rewrite (skip_ws_stop 34) by reflexivity.
    change (34 =? 125) with false. change (34 =? 34) with true. cbv iota.
    rewrite (object_items_encoded (S level) fuel rest d kv fuel IH Hv);
      [reflexivity|unfold Nat.lt in *; cbn [List.length] in *; lia|lia].
Qed.

End decoding.

(* ================================================================= *)
(** * Facts about [json.dumps] and [json.loads]: the request of [run_rpc] *)

Lemma byte_val_of (c : Z) : 0 <= c < 256 -> byte_val (byte_of c) = c.
Proof.
  intros Hc. unfold byte_val, byte_of. rewrite Z.mod_small by lia.
  destruct (Byte.of_N (Z.to_N c)) as [b|] eqn:Hb.
  - apply Byte.to_of_N in Hb. rewrite Hb. lia.
  - apply Byte.of_N_None_iff in Hb. lia.
Qed.

Lemma encode_utf8_ascii (s : str) :
  forallb is_ascii s = true -> encode_utf8 s = Return (List.map byte_of s).
Proof.
  induction s as [|c s IH]; [reflexivity|]. cbn [forallb]. intros H.
  apply andb_true_iff in H. destruct H as [Hc Hs]. apply is_ascii_elim in Hc.
  cbn [encode_utf8 List.map]. unfold utf8_encode_char.
  destruct (Z.ltb_spec c 128); [|lia]. rewrite (IH Hs). reflexivity.
Qed.

Lemma utf8_items_ascii (s : str) :
  forallb is_ascii s = true ->
  utf8_items AtStart (List.map byte_of s) = List.map Some s.
Proof.
  induction s as [|c s IH]; [reflexivity|]. cbn [forallb]. intros H.
  apply andb_true_iff in H. destruct H as [Hc Hs]. apply is_ascii_elim in Hc.
  cbn [List.map utf8_items]. rewrite byte_val_of by lia. unfold utf8_start.
  destruct (Z.ltb_spec c 128); [|lia]. now rewrite (IH Hs).
Qed.

Lemma all_items_some (s : str) : all_items (List.map Some s) = Some s.
Proof. induction s as [|c s IH]; [reflexivity|]. cbn. now rewrite IH. Qed.

Lemma decode_utf8_ascii (s : str) :
  forallb is_ascii s = true -> decode_utf8 (List.map byte_of s) = Return s.
Proof.
  intros H. unfold decode_utf8. now rewrite (utf8_items_ascii s H), all_items_some.
Qed.

Lemma hex_digit_ascii v : 0 <= v < 16 -> is_ascii (hex_digit v) = true.
Proof.
  intros Hv. apply is_ascii_intro. unfold hex_digit. destruct (v <? 10); lia.
Qed.

Lemma u_escape_ascii n : forallb is_ascii (u_escape n) = true.
Proof.
  unfold u_escape. cbn [forallb]. rewrite !hex_digit_ascii by apply land15_range.
  reflexivity.
Qed.

Lemma escape_char_ascii c : forallb is_ascii (escape_char c) = true.
Proof.
  unfold escape_char.
  repeat match goal with
         | |- context [c =? ?k] => destruct (c =? k); [reflexivity|]
         end.
  destruct ((32 <=? c) && (c <=? 126)) eqn:Hprint.
  - apply andb_true_iff in Hprint. destruct Hprint as [H32 H126].
    apply Z.leb_le in H32, H126. cbn [forallb]. rewrite is_ascii_intro by lia.
    reflexivity.
  - destruct (c <? 0x10000); [apply u_escape_ascii|].
    apply forallb_app_true; apply u_escape_ascii.
Qed.

Lemma escaped_ascii s : forallb is_ascii (escaped s) = true.
Proof.
  unfold escaped. induction s as [|c s IH]; [reflexivity|].
  cbn [flat_map]. apply forallb_app_true; [apply escape_char_ascii|exact IH].
Qed.

Lemma basestring_ascii s : forallb is_ascii (py_encode_basestring_ascii s) = true.
Proof.
  unfold py_encode_basestring_ascii. cbn [forallb]. change (is_ascii 34) with true.
  cbn [andb]. apply forallb_app_true; [apply escaped_ascii|reflexivity].
Qed.

Lemma uint_chars_ascii d : forallb is_ascii (uint_chars d) = true.
Proof. induction d; cbn; auto. Qed.

Lemma int_repr_ascii n : forallb is_ascii (int_repr n) = true.
Proof.
  unfold int_repr. apply forallb_app_true; [destruct (n <? 0); reflexivity|].
  apply uint_chars_ascii.
Qed.

Lemma join_ascii sep parts :
  forallb is_ascii sep = true ->
  Forall (fun p => forallb is_ascii p = true) parts ->
  forallb is_ascii (join sep parts) = true.
Proof.
  intros Hsep Hparts. induction Hparts as [|p ps Hp Hps IH]; [reflexivity|].
  destruct ps as [|q ps]; [exact Hp|].
  rewrite join_more. repeat apply forallb_app_true; assumption.
Qed.

(** [json.dumps] writes ASCII characters only ([ensure_ascii] is on). *)
Lemma iterencode_ascii (float_repr : pyfloat -> str) (v : value) :
  encodable float_repr v = true ->
  forall level, forallb is_ascii (iterencode float_repr None level v) = true.
Proof.
  induction v as [|b|n|f|s|l IH|d IH] using value_nested_ind; intros Hv level.
  - reflexivity.
  - destruct b; reflexivity.
  - apply int_repr_ascii.
  - exact (proj1 (floatstr_text float_repr f Hv)).
  - apply basestring_ascii.
  - destruct l as [|x l]; [reflexivity|].
    cbn [iterencode newline_indent item_separator app].
    cbn [forallb]. change (is_ascii 91) with true. cbn [andb].
    apply forallb_app_true; [|reflexivity].
    apply join_ascii; [reflexivity|].
    cbn [encodable] in Hv. rewrite forallb_forall in Hv.
    rewrite Forall_forall in IH. apply Forall_forall. intros p Hp.
    apply in_map_iff in Hp. destruct Hp as (y & <- & Hy).
    apply (IH y Hy (Hv y Hy)).
  - destruct d as [|kv d]; [reflexivity|].
    cbn [iterencode newline_indent item_separator app].
    cbn [forallb]. change (is_ascii 123) with true. cbn [andb].
    apply forallb_app_true; [|reflexivity].
    apply join_ascii; [reflexivity|].
    cbn [encodable] in Hv. rewrite forallb_forall in Hv.
    rewrite Forall_forall in IH. apply Forall_forall. intros p Hp.
    apply in_map_iff in Hp. destruct Hp as (y & <- & Hy).
    specialize (Hv y Hy). apply andb_true_iff in Hv. destruct Hv as [_ Hv].
    apply forallb_app_true; [apply basestring_ascii|].
    apply forallb_app_true; [reflexivity|apply (IH y Hy Hv)].
Qed.

Lemma merge_no_pair (s : str) : no_pair s = true -> merge_surrogates s = s.
Proof.
  induction s as [|hi s IH]; [reflexivity|].
  destruct s as [|lo s']; [reflexivity|].
  cbn [no_pair]. intros H. apply andb_true_iff in H. destruct H as [Hpair Hs].
  apply negb_true_iff in Hpair.
  change (merge_surrogates (hi :: lo :: s'))
    with (if is_high_surrogate hi && is_low_surrogate lo
          then join_surrogates hi lo :: merge_surrogates s'
          else hi :: merge_surrogates (lo :: s')).
  rewrite Hpair, (IH Hs). reflexivity.
Qed.

Lemma str_eqb_eq (a b : str) : str_eqb a b = true <-> a = b.
Proof.
  revert b. induction a as [|x a IH]; intros [|y b]; cbn; try easy.
  rewrite andb_true_iff, Z.eqb_eq, IH. split.
  - intros [-> ->]. reflexivity.
  - intros H. inversion H. auto.
Qed.

Lemma dict_set_new (d : dict) (k : str) (v : value) :
  existsb (str_eqb k) (List.map fst d) = false ->
  dict_set d k v = d ++ [(k, v)].
Proof.
  induction d as [|[k' x] d IH]; [reflexivity|].
  cbn [List.map fst existsb dict_set app]. intros H.
  apply orb_false_iff in H. destruct H as [Hk Hd].
  assert (Hk' : str_eqb k' k = false).
  { destruct (str_eqb k' k) eqn:E; [|reflexivity].
    apply str_eqb_eq in E. subst k'.
    assert (str_eqb k k = true) by now apply str_eqb_eq. congruence. }
  rewrite Hk', (IH Hd). reflexivity.
Qed.

Lemma dict_of_pairs_acc (pairs : list (str * value)) :
  forall acc : dict,
    unique_keys (List.map fst pairs) = true ->
    (forall kv, In kv pairs -> existsb (str_eqb (fst kv)) (List.map fst acc) = false) ->
    fold_left (fun d kv => dict_set d (fst kv) (snd kv)) pairs acc = acc ++ pairs.
Proof.
  induction pairs as [|[k v] pairs IH]; intros acc Huniq Hfresh.
  - cbn. now rewrite List.app_nil_r.
  - cbn [List.map fst unique_keys] in Huniq. apply andb_true_iff in Huniq.
    destruct Huniq as [Hk Huniq]. apply negb_true_iff in Hk.
    cbn [fold_left fst snd].
    rewrite (dict_set_new acc k v (Hfresh (k, v) (or_introl eq_refl))).
    rewrite IH; [now rewrite <- app_assoc|exact Huniq|].
    intros [k' v'] Hin. pose proof (Hfresh (k', v') (or_intror Hin)) as Hacc.
    cbn [fst] in *. rewrite map_app, existsb_app. cbn [List.map fst existsb].
    rewrite Hacc. cbn [orb]. rewrite orb_false_r.
    destruct (str_eqb k' k) eqn:E; [|reflexivity].
    apply str_eqb_eq in E. subst k'.
    assert (Hex : existsb (str_eqb k) (List.map fst pairs) = true).
    { apply existsb_exists. exists k. split; [|now apply str_eqb_eq].
      apply in_map_iff. now exists (k, v'). }
    congruence.
Qed.

(** [dict(pairs)] keeps pairs with pairwise different keys as they are. *)
Lemma dict_of_pairs_unique (pairs : list (str * value)) :
  unique_keys (List.map fst pairs) = true -> dict_of_pairs pairs = pairs.
Proof.
  intros H. unfold dict_of_pairs. rewrite (dict_of_pairs_acc pairs [] H); [reflexivity|].
  reflexivity.
Qed.

Lemma decoded_plain (v : value) : plain v = true -> decoded v = v.
Proof.
  induction v as [|b|n|f|s|l IH|d IH] using value_nested_ind; intros Hv;
    try reflexivity.
  - cbn [plain decoded] in *. now rewrite (merge_no_pair s Hv).
  - cbn [plain decoded] in *. f_equal.
    rewrite forallb_forall in Hv. rewrite Forall_forall in IH.
    rewrite <- (map_id l) at 2. apply map_ext_in. intros x Hx. apply (IH x Hx (Hv x Hx)).
  - cbn [plain decoded] in *. apply andb_true_iff in Hv. destruct Hv as [Hitems Hkeys].
    rewrite forallb_forall in Hitems. rewrite Forall_forall in IH.
    assert (Hmap : List.map (fun kv => (merge_surrogates (fst kv), decoded (snd kv))) d = d).
    { rewrite <- (map_id d) at 2. apply map_ext_in. intros [k x] Hx.
      specialize (Hitems (k, x) Hx). apply andb_true_iff in Hitems.
      destruct Hitems as [Hk Hpx]. pose proof (IH (k, x) Hx Hpx) as Hd.
      cbn [fst snd] in *. now rewrite (merge_no_pair k Hk), Hd. }
    rewrite Hmap, (dict_of_pairs_unique d Hkeys). reflexivity.
Qed.

(** [json.loads(json.dumps(v))] for an encodable object. *)
Theorem loads_dumps (float_repr : pyfloat -> str) (v : value) :
  encodable float_repr v = true -> loads (dumps float_repr None v) = Return (decoded v).
Proof.
  intros Hv. unfold loads, dumps.
  pose proof (iterencode_ascii float_repr v Hv 0%nat) as Hascii.
  pose proof (scan_once_reads_back float_repr v Hv 0%nat []
                (S (List.length (iterencode float_repr None 0 v))) eq_refl) as Hscan.
  rewrite List.app_nil_r in Hscan. specialize (Hscan (Nat.lt_succ_diag_r _)).
  pose proof (skip_ws_enc float_repr 0%nat v [] Hv) as Hskip.
  rewrite List.app_nil_r in Hskip.
  destruct (iterencode float_repr None 0 v) as [|c t] eqn:Htext.
  - destruct (enc_head float_repr 0%nat v Hv) as (c & t & Hhead & _). congruence.
  - cbn [forallb] in Hascii. apply andb_true_iff in Hascii. destruct Hascii as [Hc _].
    apply is_ascii_elim in Hc. cbn [after_prefix].
    destruct (Z.eqb_spec 65279 c) as [E|_]; [lia|].
    rewrite Hskip, Hscan. reflexivity.
Qed.

Lemma ascii_valid_str (s : str) : forallb is_ascii s = true -> valid_str s = true.
Proof.
  unfold valid_str. intros H. rewrite forallb_forall in *. intros c Hc.
  specialize (H c Hc). apply is_ascii_elim in H. unfold valid_codepoint.
  apply andb_true_iff. split; apply Z.leb_le; lia.
Qed.

Lemma uuid_to_str_ascii (n : Z) : forallb is_ascii (uuid.to_str n) = true.
Proof.
  unfold uuid.to_str. rewrite hex32_nibbles.
  cbn [rev seq app List.map firstn skipn forallb].
  rewrite !hex_digit_ascii by apply nibble_range. reflexivity.
Qed.

Lemma or_default_params (params : option dict) :
  or_default dict_true params [] = params_sent params.
Proof. destruct params as [[|kv d]|]; reflexivity. Qed.

Lemma payload_id_valid (w : World) (request_id : option str) :
  valid_request_id request_id = true -> valid_str (payload_id w request_id) = true.
Proof.
  unfold payload_id, or_default. destruct request_id as [[|c r]|]; cbn [str_true]; intros H.
  - apply ascii_valid_str, uuid_to_str_ascii.
  - exact H.
  - apply ascii_valid_str, uuid_to_str_ascii.
Qed.

Lemma ascii_no_pair (s : str) : forallb is_ascii s = true -> no_pair s = true.
Proof.
  induction s as [|hi s IH]; [reflexivity|]. cbn [forallb]. intros H.
  apply andb_true_iff in H. destruct H as [Hc Hs]. apply is_ascii_elim in Hc.
  destruct s as [|lo s']; [reflexivity|].
  change (no_pair (hi :: lo :: s'))
    with (negb (is_high_surrogate hi && is_low_surrogate lo) && no_pair (lo :: s')).
  rewrite (IH Hs), andb_true_r. unfold is_high_surrogate.
  replace (55296 <=? hi) with false by (symmetry; apply Z.leb_gt; lia). reflexivity.
Qed.

(** [run_rpc] has a request to write exactly when the encoder met no error;
    the bytes are then those of the text of the payload. *)
Lemma rpc_input_returns (w : World) (payload : dict) (input : bytes) :
  rpc_input w payload = Return input ->
  encoder_error (encoder_depth w) (int_max_str_digits w) (VDict payload) = None
  /\ encode_utf8 (dumps (repr_float w) None (VDict payload)) = Return input.
Proof.
  unfold rpc_input, json_dumps.
  destruct (encoder_error _ _ _); cbn [obind]; [discriminate|]. now split.
Qed.

(** When [json.dumps] raises, [run_rpc] raises the same error before it
    starts any child process. *)
Lemma run_rpc_unwritten (w : World) (op : str) (params : option dict)
      (request_id : option str) (e : exn) :
  rpc_input w (rpc_payload w op params request_id) = Raise e ->
  run_rpc w op params request_id = ([], Raise e).
Proof. intros H. unfold run_rpc, bind, lift. now rewrite H. Qed.

(** The payload [{"n": 10 ** 4300}] is refused: its [int] has 4301 digits,
    one more than the interpreter turns into text. *)
Lemma run_rpc_long_int_is_refused :
  run_rpc (world_exiting proc_boom) (lit "ping")
          (Some [(lit "n", VInt (10 ^ 4300))]) None
  = ([], Raise ValueError)
  /\ exists input,
      rpc_input (world_exiting proc_boom)
        (rpc_payload (world_exiting proc_boom) (lit "ping")
           (Some [(lit "n", VInt (10 ^ 4300 - 1))]) None)
      = Return input.
Proof. split; [vm_compute; reflexivity|]. eexists. vm_compute. reflexivity. Qed.

(** [params] nested 992 dicts deep are written, 993 deep they are refused:
    the payload is one dict more. *)
Lemma run_rpc_deep_params_are_refused :
  run_rpc (world_exiting proc_boom) (lit "ping")
          (Some [(lit "a", nested_dict 991)]) None
  = ([], Raise RecursionError)
  /\ exists input,
      rpc_input (world_exiting proc_boom)
        (rpc_payload (world_exiting proc_boom) (lit "ping")
           (Some [(lit "a", nested_dict 990)]) None)
      = Return input.
Proof. split; [vm_compute; reflexivity|]. eexists. vm_compute. reflexivity. Qed.

Section round_trip.

Variables (w : World) (op : str) (params : option dict) (request_id : option str).
Hypothesis op_ok : valid_op op = true.
Hypothesis params_ok : valid_params w params = true.
Hypothesis id_ok : valid_request_id request_id = true.

Lemma payload_encodable :
  encodable (repr_float w) (VDict (rpc_payload w op params request_id)) = true.
Proof.
  unfold rpc_payload. cbn [encodable forallb fst snd].
  rewrite (payload_id_valid w request_id id_ok).
  unfold valid_op in op_ok. apply andb_true_iff in op_ok. destruct op_ok as [Hop _].
  rewrite Hop, or_default_params.
  change (valid_str (lit "id")) with true. change (valid_str (lit "op")) with true.
  change (valid_str (lit "params")) with true. cbn [andb].
  destruct params as [d|]; [|reflexivity]. cbn [valid_params params_sent] in *.
  apply andb_true_iff in params_ok. destruct params_ok as [Henc _].
  cbn [encodable] in Henc. rewrite Henc. reflexivity.
Qed.

Lemma payload_decoded :
  decoded (VDict (rpc_payload w op params request_id))
  = VDict [ (lit "id", VStr (merge_surrogates (payload_id w request_id)));
            (lit "op", VStr op);
            (lit "params", VDict (params_sent params)) ].
Proof.
  unfold rpc_payload. rewrite or_default_params.
  cbn [decoded List.map fst snd].
  unfold valid_op in op_ok. apply andb_true_iff in op_ok. destruct op_ok as [_ Hop].
  rewrite (merge_no_pair op Hop).
  assert (Hp : decoded (VDict (params_sent params)) = VDict (params_sent params)).
  { destruct params as [d|]; [|reflexivity]. cbn [valid_params params_sent] in *.
    apply andb_true_iff in params_ok. now apply decoded_plain. }
  cbn [decoded] in Hp. rewrite Hp. reflexivity.
Qed.

(** The bytes written are the characters of the text, one byte each. *)
Lemma request_bytes (input : bytes) :
  rpc_input w (rpc_payload w op params request_id) = Return input ->
  input = List.map byte_of
            (dumps (repr_float w) None (VDict (rpc_payload w op params request_id))).
Proof.
  intros Hin. apply rpc_input_returns in Hin. destruct Hin as [_ Hin].
  rewrite encode_utf8_ascii in Hin
    by apply (iterencode_ascii (repr_float w) _ payload_encodable 0%nat).
  now injection Hin as <-.
Qed.

Lemma request_text :
  decode_utf8 (List.map byte_of
                 (dumps (repr_float w) None (VDict (rpc_payload w op params request_id))))
  = Return (dumps (repr_float w) None (VDict (rpc_payload w op params request_id))).
Proof.
  apply decode_utf8_ascii.
  apply (iterencode_ascii (repr_float w) _ payload_encodable 0%nat).
Qed.

Lemma request_loads :
  loads (dumps (repr_float w) None (VDict (rpc_payload w op params request_id)))
  = Return (VDict [ (lit "id", VStr (merge_surrogates (payload_id w request_id)));
                    (lit "op", VStr op);
                    (lit "params", VDict (params_sent params)) ]).
Proof. rewrite (loads_dumps _ _ payload_encodable). now rewrite payload_decoded. Qed.

End round_trip.

(** The one event of a call to [run_rpc] whose request could be written is
    the child process given that request on its standard input. *)
Lemma run_rpc_trace (w : World) (op : str) (params : option dict)
      (request_id : option str) (input : bytes) :
  rpc_input w (rpc_payload w op params request_id) = Return input ->
  trace (run_rpc w op params request_id) = [Spawn rpc_args (Some input)].
Proof.
  intros Hin. destruct (spawn w rpc_args (Some input)) as [proc|e] eqn:Hsp.
  - destruct (Z.eq_dec (returncode proc) 0) as [Hrc|Hrc].
    + now rewrite (run_rpc_zero w op params request_id input Hin proc Hsp Hrc).
    + now rewrite (run_rpc_nonzero w op params request_id input Hin proc Hsp Hrc).
  - now rewrite (run_rpc_spawn_failed w op params request_id input Hin e Hsp).
Qed.

(** C7.  For every valid [op] and [params] (strings of code points without
    a high surrogate directly followed by a low one, pairwise different
    keys in each dict, floats other than not-a-number): the request
    [run_rpc] serialises is what it writes to the standard input of the one
    child process it starts, and decoding what it wrote, as UTF-8 and then
    as JSON, gives an object whose ["op"] is [op] and whose ["params"] is
    [params] ([{}] when omitted).  There is such a request unless
    [json.dumps] refuses the payload (an [int] of more digits than the
    interpreter turns into text, or nesting beyond what its recursion limit
    leaves); there is none then: [run_rpc] raises the error of [json.dumps]
    and starts no child process. *)
Theorem request_round_trips (w : World) (op : str) (params : option dict)
        (request_id : option str) :
  valid_op op = true ->
  valid_params w params = true ->
  valid_request_id request_id = true ->
  (forall input : bytes,
      rpc_input w (rpc_payload w op params request_id) = Return input ->
      trace (run_rpc w op params request_id) = [Spawn rpc_args (Some input)]
      /\ exists (text : str) (request : dict),
          decode_utf8 input = Return text
          /\ loads text = Return (VDict request)
          /\ dict_lookup request (lit "op") = Some (VStr op)
          /\ dict_lookup request (lit "params") = Some (VDict (params_sent params))
          /\ List.map fst request = [lit "id"; lit "op"; lit "params"])
  /\ (forall e : exn,
         rpc_input w (rpc_payload w op params request_id) = Raise e ->
         run_rpc w op params request_id = ([], Raise e))
  /\ (encoder_error (encoder_depth w) (int_max_str_digits w)
                    (VDict (rpc_payload w op params request_id)) = None ->
      exists input : bytes,
        rpc_input w (rpc_payload w op params request_id) = Return input).
Proof.
  intros Hop Hparams Hid. split; [|split].
  - intros input Hin.
    split; [exact (run_rpc_trace w op params request_id input Hin)|].
    rewrite (request_bytes w op params request_id Hop Hparams Hid input Hin).
    eexists _, _.
    split; [exact (request_text w op params request_id Hop Hparams Hid)|].
    split; [exact (request_loads w op params request_id Hop Hparams Hid)|].
    repeat split.
  - intros e Hin. exact (run_rpc_unwritten w op params request_id e Hin).
  - intros Hfine. unfold rpc_input, json_dumps. rewrite Hfine. cbn [obind].
    eexists. apply encode_utf8_ascii.
    apply (iterencode_ascii (repr_float w) _
             (payload_encodable w op params request_id Hop Hparams Hid) 0%nat).
Qed.

Lemma request_round_trips_witness :
  valid_op (lit "ping") = true
  /\ valid_params (world_exiting proc_boom)
       (Some [(lit "n", VInt 5); (lit "x", VFloat (FDec false 15 (-1)));
              (lit "tags", VList [VStr (lit "a"); VNone; VFloat (FDec true 25 (-2))])])
     = true
  /\ valid_request_id None = true
  /\ exists (input : bytes) (text : str) (request : dict),
      rpc_input (world_exiting proc_boom)
                (rpc_payload (world_exiting proc_boom) (lit "ping")
                   (Some [(lit "n", VInt 5); (lit "x", VFloat (FDec false 15 (-1)));
                          (lit "tags",
                           VList [VStr (lit "a"); VNone; VFloat (FDec true 25 (-2))])])
                   None)
      = Return input
      /\ trace (run_rpc (world_exiting proc_boom) (lit "ping")
                  (Some [(lit "n", VInt 5); (lit "x", VFloat (FDec false 15 (-1)));
                         (lit "tags",
                          VList [VStr (lit "a"); VNone; VFloat (FDec true 25 (-2))])])
                  None)
         = [Spawn rpc_args (Some input)]
      /\ decode_utf8 input = Return text
      /\ loads text = Return (VDict request)
      /\ dict_lookup request (lit "op") = Some (VStr (lit "ping"))
      /\ dict_lookup request (lit "params")
         = Some (VDict [(lit "n", VInt 5); (lit "x", VFloat (FDec false 15 (-1)));
                        (lit "tags",
                         VList [VStr (lit "a"); VNone; VFloat (FDec true 25 (-2))])]).
Proof.
  split; [reflexivity|]. split; [reflexivity|]. split; [reflexivity|].
  destruct (rpc_input (world_exiting proc_boom)
              (rpc_payload (world_exiting proc_boom) (lit "ping")
                 (Some [(lit "n", VInt 5); (lit "x", VFloat (FDec false 15 (-1)));
                        (lit "tags",
                         VList [VStr (lit "a"); VNone; VFloat (FDec true 25 (-2))])])
                 None))
    as [input|] eqn:Hin; [|vm_compute in Hin; discriminate].
  destruct (request_round_trips (world_exiting proc_boom) (lit "ping")
              (Some [(lit "n", VInt 5); (lit "x", VFloat (FDec false 15 (-1)));
                     (lit "tags",
                      VList [VStr (lit "a"); VNone; VFloat (FDec true 25 (-2))])])
              None eq_refl eq_refl eq_refl)
    as [Hwritten _].
  destruct (Hwritten input Hin)
    as (Htrace & text & request & Hdec & Hloads & Hop & Hparams & _).
  exists input, text, request. repeat split; assumption.
Defined.

(** C10.  The defaults of [run_rpc] are taken by truth value.  With
    [request_id = ""] the id of the request is the text of a fresh
    [uuid.uuid4()], not the empty string: the request [run_rpc] writes to
    the child process is the one made with that id (decoded, its ["id"] is
    that text), and the whole call goes as with [request_id] omitted.  With
    [params = {}] the request [run_rpc] writes, and the whole call, are the
    same as with [params] omitted. *)
Theorem run_rpc_defaults_by_truthiness (w : World) (op : str) (params : option dict)
        (request_id : option str) :
  dict_lookup (rpc_payload w op params (Some [])) (lit "id")
  = Some (VStr (uuid.to_str (uuid.uuid4 w)))
  /\ is_uuid4 (uuid.to_str (uuid.uuid4 w)) = true
  /\ uuid.to_str (uuid.uuid4 w) <> []
  /\ rpc_input w (rpc_payload w op params (Some []))
     = rpc_input w (rpc_payload w op params None)
  /\ run_rpc w op params (Some []) = run_rpc w op params None
  /\ rpc_payload w op (Some []) request_id = rpc_payload w op None request_id
  /\ rpc_input w (rpc_payload w op (Some []) request_id)
     = rpc_input w (rpc_payload w op None request_id)
  /\ run_rpc w op (Some []) request_id = run_rpc w op None request_id
  /\ (forall input : bytes,
         rpc_input w (rpc_payload w op params (Some [])) = Return input ->
         trace (run_rpc w op params (Some [])) = [Spawn rpc_args (Some input)]
         /\ (valid_op op = true -> valid_params w params = true ->
             exists (text : str) (request : dict),
               decode_utf8 input = Return text
               /\ loads text = Return (VDict request)
               /\ dict_lookup request (lit "id")
                  = Some (VStr (uuid.to_str (uuid.uuid4 w)))))
  /\ (forall input : bytes,
         rpc_input w (rpc_payload w op None request_id) = Return input ->
         trace (run_rpc w op (Some []) request_id) = [Spawn rpc_args (Some input)]
         /\ trace (run_rpc w op None request_id) = [Spawn rpc_args (Some input)]).
Proof.
  split; [reflexivity|]. split; [apply uuid4_valid|]. split.
  { intros Hempty. pose proof (uuid4_valid w) as Hvalid.
    rewrite Hempty in Hvalid. discriminate. }
  assert (Hid : rpc_payload w op params (Some []) = rpc_payload w op params None)
    by reflexivity.
  assert (Hparams : rpc_payload w op (Some []) request_id
                    = rpc_payload w op None request_id) by reflexivity.
  split; [now rewrite Hid|].
  split; [unfold run_rpc; now rewrite Hid|].
  split; [exact Hparams|].
  split; [now rewrite Hparams|].
  split; [unfold run_rpc; now rewrite Hparams|].
  split.
  - intros input Hin.
    split; [exact (run_rpc_trace w op params (Some []) input Hin)|].
    intros Hop Hvalid.
    rewrite (request_bytes w op params (Some []) Hop Hvalid eq_refl input Hin).
    eexists _, _.
    split; [exact (request_text w op params (Some []) Hop Hvalid eq_refl)|].
    split; [exact (request_loads w op params (Some []) Hop Hvalid eq_refl)|].
    change (payload_id w (Some [])) with (uuid.to_str (uuid.uuid4 w)).
    rewrite (merge_no_pair _ (ascii_no_pair _ (uuid_to_str_ascii (uuid.uuid4 w)))).
    reflexivity.
  - intros input Hin. split.
    + apply (run_rpc_trace w op (Some []) request_id input). now rewrite Hparams.
    + exact (run_rpc_trace w op None request_id input Hin).
Qed.

Lemma run_rpc_defaults_by_truthiness_witness :
  dict_lookup (rpc_payload (world_exiting proc_boom) (lit "ping") None (Some []))
              (lit "id")
  = Some (VStr (lit "00010203-0405-4607-8809-0a0b0c0d0e0f"))
  /\ run_rpc (world_exiting proc_boom) (lit "ping") (Some []) (Some (lit "r1"))
     = run_rpc (world_exiting proc_boom) (lit "ping") None (Some (lit "r1"))
  /\ exists (input : bytes) (text : str) (request : dict),
      rpc_input (world_exiting proc_boom)
        (rpc_payload (world_exiting proc_boom) (lit "ping") None (Some []))
      = Return input
      /\ trace (run_rpc (world_exiting proc_boom) (lit "ping") None (Some []))
         = [Spawn rpc_args (Some input)]
      /\ decode_utf8 input = Return text
      /\ loads text = Return (VDict request)
      /\ dict_lookup request (lit "id")
         = Some (VStr (lit "00010203-0405-4607-8809-0a0b0c0d0e0f")).
Proof.
  destruct (run_rpc_defaults_by_truthiness (world_exiting proc_boom) (lit "ping")
              None (Some (lit "r1")))
    as (Hid & _ & _ & _ & _ & _ & _ & Hcall & Hsent & _).
  split; [exact Hid|]. split; [exact Hcall|].
  destruct (rpc_input (world_exiting proc_boom)
              (rpc_payload (world_exiting proc_boom) (lit "ping") None (Some [])))
    as [input|] eqn:Hin; [|vm_compute in Hin; discriminate].
  destruct (Hsent input eq_refl) as (Htrace & Hdecoded).
  destruct (Hdecoded eq_refl eq_refl) as (text & request & Hdec & Hloads & Hlookup).
  exists input, text, request. repeat split; assumption.
Defined.
